(** * corun: a coroutine scheduler (src/corun.py)

    A shallow embedding of the [Scheduler] class and of the [SystemCall]
    handlers, and the properties of the dispatch loop.

    Conventions of the embedding.
    - A [Task] object is identified by its [tid]: [Task.__init__] sets
      [tid = self.__hash__()], and the default hash is injective on the
      objects alive at one time.  Every container of the scheduler
      ([ready], [io_waiting], [time_waiting], [exit_waiting]) holds
      references to [Task] objects, here their [tid]; the mutable fields
      of the objects ([target], [sendval]) live in one store, [objects],
      so that a write through one reference is seen through all of them.
    - [taskmap] is only ever written as [taskmap[x.tid] = x], so the dict
      is represented by its set of keys.
    - Wall-clock values are rationals: the arithmetic of
      [WaitForTime.handle] is carried out exactly.  The module [Binary64]
      has the same arithmetic on IEEE doubles, to check a deadline.
    - A coroutine acts on the scheduler only through what it yields.
    - The world outside the scheduler thread (the clock, the readiness
      events given by [epoll.poll], the hash of a new object) is an input
      of each step; calls made by other threads ([new], [joinall],
      [shutdown]) take place between two iterations of the loop. *)

From Stdlib Require Import ZArith QArith Qround Lqa.
From Stdlib Require Import Floats.SpecFloat.
From stdpp Require Import base option list gmap sets.

Local Open Scope Z_scope.

Abbreviation tid := Z (only parsing).
Abbreviation fd := Z (only parsing).

(** ** Exceptions, values, system calls *)

Inductive exn :=
| StopIteration
| ZeroDivisionError
| KeyError
| IOError
| Failure (code : nat).  (* any other exception a coroutine raises *)

(** The values a handler stores in [task.sendval]. *)
Inductive value := VNone | VTrue | VFalse.

Inductive SystemCall :=
| KillTask (t : tid)
| WaitForTask (t : tid)
| WaitForTime (seconds : Q)
| ReadTask (fileobj : fd)       (* the object is given by its [fileno()] *)
| WriteTask (fileobj : fd).

(** What [target.send] hands back to [Task.run]: a [SystemCall] instance, or
    anything else. *)
Inductive yielded := Plain | Sys (c : SystemCall).

(** ** Generators

    A user coroutine is the tree of what it does from the resume on: it
    returns (the generator raises [StopIteration]), raises, or yields and
    waits for the next [send].  [close()] is taken to end it: the body does
    not intercept [GeneratorExit]. *)
Inductive body :=
| Finish
| Fail (e : exn)
| Yield (y : yielded) (k : value -> body).

Inductive generator :=
| Gen (k : value -> body)                          (* suspended user coroutine *)
| io_epoll_task                                    (* Scheduler.__io_epoll_task *)
| time_poll_task                                   (* Scheduler.__time_poll_task *)
| wait_for_tasks (coroutines : list tid) (event : nat)  (* what is left of the loop *)
| closed.

Record Task := mkTask { target : generator; sendval : value }.

Inductive eventmask := EPOLLIN | EPOLLOUT.

(** ** The scheduler object *)

Record Scheduler := mkScheduler {
  ready : list tid;                       (* Queue(): FIFO, head first *)
  taskmap : gset tid;
  exit_waiting : gmap tid (list tid);
  io_waiting : gmap fd tid;
  time_waiting : list (Q * list tid);     (* dict keyed by the wake time *)
  epoll : gmap fd eventmask;              (* descriptors registered with epoll *)
  running : bool;
  objects : tid -> Task;                  (* the Task objects *)
  events : gset nat;                      (* threading.Event objects that are set *)
  polled : list Z                         (* timeouts given to epoll.poll, oldest first *)
}.

Definition set_ready (f : list tid -> list tid) (s : Scheduler) : Scheduler :=
  mkScheduler (f (ready s)) (taskmap s) (exit_waiting s) (io_waiting s)
    (time_waiting s) (epoll s) (running s) (objects s) (events s) (polled s).

Definition set_taskmap (f : gset tid -> gset tid) (s : Scheduler) : Scheduler :=
  mkScheduler (ready s) (f (taskmap s)) (exit_waiting s) (io_waiting s)
    (time_waiting s) (epoll s) (running s) (objects s) (events s) (polled s).

Definition set_exit_waiting (f : gmap tid (list tid) -> gmap tid (list tid))
    (s : Scheduler) : Scheduler :=
  mkScheduler (ready s) (taskmap s) (f (exit_waiting s)) (io_waiting s)
    (time_waiting s) (epoll s) (running s) (objects s) (events s) (polled s).

Definition set_io_waiting (f : gmap fd tid -> gmap fd tid) (s : Scheduler) : Scheduler :=
  mkScheduler (ready s) (taskmap s) (exit_waiting s) (f (io_waiting s))
    (time_waiting s) (epoll s) (running s) (objects s) (events s) (polled s).

Definition set_time_waiting (f : list (Q * list tid) -> list (Q * list tid))
    (s : Scheduler) : Scheduler :=
  mkScheduler (ready s) (taskmap s) (exit_waiting s) (io_waiting s)
    (f (time_waiting s)) (epoll s) (running s) (objects s) (events s) (polled s).

Definition set_epoll (f : gmap fd eventmask -> gmap fd eventmask) (s : Scheduler) : Scheduler :=
  mkScheduler (ready s) (taskmap s) (exit_waiting s) (io_waiting s)
    (time_waiting s) (f (epoll s)) (running s) (objects s) (events s) (polled s).

Definition set_running (b : bool) (s : Scheduler) : Scheduler :=
  mkScheduler (ready s) (taskmap s) (exit_waiting s) (io_waiting s)
    (time_waiting s) (epoll s) b (objects s) (events s) (polled s).

Definition set_objects (f : (tid -> Task) -> tid -> Task) (s : Scheduler) : Scheduler :=
  mkScheduler (ready s) (taskmap s) (exit_waiting s) (io_waiting s)
    (time_waiting s) (epoll s) (running s) (f (objects s)) (events s) (polled s).

Definition set_events (f : gset nat -> gset nat) (s : Scheduler) : Scheduler :=
  mkScheduler (ready s) (taskmap s) (exit_waiting s) (io_waiting s)
    (time_waiting s) (epoll s) (running s) (objects s) (f (events s)) (polled s).

Definition set_polled (f : list Z -> list Z) (s : Scheduler) : Scheduler :=
  mkScheduler (ready s) (taskmap s) (exit_waiting s) (io_waiting s)
    (time_waiting s) (epoll s) (running s) (objects s) (events s) (f (polled s)).

(** ** A state and exception monad for the methods *)

Inductive outcome (A : Type) :=
| Return (a : A) (s : Scheduler)
| Raise (e : exn) (s : Scheduler).
Arguments Return {A} a s.
Arguments Raise {A} e s.

Definition M (A : Type) := Scheduler -> outcome A.

Definition ret {A} (a : A) : M A := fun s => Return a s.
Definition raise {A} (e : exn) : M A := fun s => Raise e s.
Definition bind {A B} (m : M A) (f : A -> M B) : M B :=
  fun s => match m s with
           | Return a s' => f a s'
           | Raise e s' => Raise e s'
           end.
Definition get : M Scheduler := fun s => Return s s.
Definition modify (f : Scheduler -> Scheduler) : M unit := fun s => Return tt (f s).

Notation "'let!' x ':=' m 'in' k" := (bind m (fun x => k))
  (at level 10, x name, m at level 100, k at level 200).
Notation "m '>>' k" := (bind m (fun _ => k))
  (at level 90, right associativity).

(** ** Scheduler methods *)

(** [Scheduler.__init__], before the thread runs. *)
Definition Scheduler_init : Scheduler :=
  mkScheduler [] ∅ ∅ ∅ [] ∅ true (fun _ => mkTask closed VNone) ∅ [].

Definition set_target (t : tid) (g : generator) : Scheduler -> Scheduler :=
  set_objects (fun o x => if decide (x = t) then mkTask g (sendval (o x)) else o x).

Definition set_sendval (t : tid) (v : value) : Scheduler -> Scheduler :=
  set_objects (fun o x => if decide (x = t) then mkTask (target (o x)) v else o x).

Definition ready_put (task : tid) : M unit :=
  modify (set_ready (fun q => q ++ [task])).

(** [new]: [newtask] is the hash of the [Task] object just built. *)
Definition new (tgt : generator) (newtask : tid) : M tid :=
  modify (set_objects (fun o x => if decide (x = newtask) then mkTask tgt VNone else o x)) >>
  modify (set_taskmap (fun m => {[newtask]} ∪ m)) >>
  ready_put newtask >>
  ret newtask.

(** The dict [time_waiting]: the bucket of [exptime] is made when missing,
    and the task is appended to it. *)
Fixpoint time_waiting_append (tw : list (Q * list tid)) (exptime : Q) (task : tid)
    : list (Q * list tid) :=
  match tw with
  | [] => [(exptime, [task])]
  | (k, l) :: tw' =>
      if Qeq_bool k exptime then (k, l ++ [task]) :: tw'
      else (k, l) :: time_waiting_append tw' exptime task
  end.

Definition wait_for_time (task : tid) (exptime : Q) : M unit :=
  modify (set_time_waiting (fun tw => time_waiting_append tw exptime task)).

(** [select.epoll]: registering a descriptor twice raises (EEXIST), and so
    does unregistering one that is not registered (ENOENT). *)
Definition epoll_register (fdesc : fd) (mask : eventmask) : M unit :=
  fun s => match epoll s !! fdesc with
           | Some _ => Raise IOError s
           | None => Return tt (set_epoll (insert fdesc mask) s)
           end.

Definition epoll_unregister (fdesc : fd) : M unit :=
  fun s => match epoll s !! fdesc with
           | Some _ => Return tt (set_epoll (delete fdesc) s)
           | None => Raise IOError s
           end.

Definition wait_for_read (task : tid) (fdesc : fd) : M unit :=
  modify (set_io_waiting (insert fdesc task)) >>
  epoll_register fdesc EPOLLIN.

Definition wait_for_write (task : tid) (fdesc : fd) : M unit :=
  modify (set_io_waiting (insert fdesc task)) >>
  epoll_register fdesc EPOLLOUT.

(** [taskmap.pop(task.tid)] raises [KeyError] on a missing key. *)
Definition taskmap_pop (t : tid) : M unit :=
  fun s => if decide (t ∈ taskmap s)
           then Return tt (set_taskmap (fun m => m ∖ {[t]}) s)
           else Raise KeyError s.

Definition wait_for_exit (task : tid) (waitid : tid) : M bool :=
  let! s := get in
  if decide (waitid ∈ taskmap s) then
    taskmap_pop task >>
    (let! s := get in
     match exit_waiting s !! waitid with
     | Some l => modify (set_exit_waiting (insert waitid (l ++ [task])))
     | None => modify (set_exit_waiting (insert waitid [task]))
     end) >>
    ret true
  else ret false.

(** [__epoll(timeout)]: [fdevents] is what [epoll.poll(timeout)] returns. *)
Fixpoint epoll_events (fdevents : list fd) : M unit :=
  match fdevents with
  | [] => ret tt
  | fdesc :: rest =>
      (fun s => match io_waiting s !! fdesc with
                | Some task =>
                    (modify (set_io_waiting (delete fdesc)) >> ready_put task) s
                | None => Raise KeyError s
                end) >>
      epoll_unregister fdesc >>
      epoll_events rest
  end.

Definition __epoll (timeout : Z) (fdevents : list fd) : M unit :=
  modify (set_polled (fun p => p ++ [timeout])) >>
  epoll_events fdevents.

(** The truth value of [self.ready] in [not(self.ready)]: the class
    [Queue.Queue] defines neither [__nonzero__] nor [__len__], so an
    instance is true whatever it holds. *)
Definition Queue_bool (q : list tid) : bool := true.

(** One turn of the loop of [__io_epoll_task], up to its [yield]. *)
Definition io_epoll_turn (fdevents : list fd) : M unit :=
  let! s := get in
  if decide (io_waiting s = ∅) then ret tt
  else if negb (Queue_bool (ready s)) then __epoll (-1) fdevents
       else __epoll 0 fdevents.

(** One turn of the loop of [__time_poll_task], up to its [yield].  Here
    the buckets are visited in the order of the list; [dict.keys()] lists
    the keys of a Python 2 dict in an order of its own, which is not
    modelled, so of that order the properties use no more than that every
    bucket is visited once. *)
Definition due (current_time : Q) (b : Q * list tid) : bool :=
  Qle_bool (fst b) current_time.

Definition time_poll_turn (current_time : Q) : M unit :=
  let! s := get in
  modify (set_time_waiting (filter (fun b => due current_time b = false))) >>
  modify (set_ready (fun q =>
            q ++ concat (filter (fun b => due current_time b = true) (time_waiting s)).*2)).

(** ** System call handlers *)

(** What the scheduler thread reads from outside during one iteration:
    the wall clock, and the descriptors [epoll.poll] reports. *)
Record World := mkWorld { time_time : Q; poll : list fd }.

Definition KillTask_handle (t : tid) (task : tid) : M unit :=
  let! s := get in
  (if decide (t ∈ taskmap s)
   then modify (set_target t closed) >> modify (set_sendval task VTrue)
   else modify (set_sendval task VFalse)) >>
  ready_put task.

Definition value_of_bool (b : bool) : value := if b then VTrue else VFalse.

Definition WaitForTask_handle (t : tid) (task : tid) : M unit :=
  let! result := wait_for_exit task t in
  modify (set_sendval task (value_of_bool result)) >>
  (if negb result then ready_put task else ret tt).

(** [int(x)] on a float: truncation toward zero. *)
Definition int (x : Q) : Z := Z.quot (Qnum x) (Z.pos (Qden x)).

(** [1.0 / self.seconds] raises [ZeroDivisionError] when [seconds] is 0.
    The deadline is computed on exact rationals; a Python float rounds each
    operation, as [Binary64] below does, and what is stated of a deadline
    is checked there too. *)
Definition WaitForTime_handle (seconds : Q) (now : Q) (task : tid) : M unit :=
  if Qeq_bool seconds 0 then raise ZeroDivisionError
  else
    let resolution := (1 / seconds)%Q in
    let exptime := (now + seconds)%Q in
    let exptime := (inject_Z (int (exptime * resolution)) / resolution)%Q in
    wait_for_time task exptime.

Definition handle (c : SystemCall) (w : World) (task : tid) : M unit :=
  match c with
  | KillTask t => KillTask_handle t task
  | WaitForTask t => WaitForTask_handle t task
  | WaitForTime seconds => WaitForTime_handle seconds (time_time w) task
  | ReadTask fileobj => wait_for_read task fileobj
  | WriteTask fileobj => wait_for_write task fileobj
  end.

(** The arithmetic of [WaitForTime.handle] on IEEE binary64 numbers, which is
    what a Python float is.  It is used to check that a deadline computed on
    rationals is the one the code computes. *)
Module Binary64.

Definition prec : Z := 53.
Definition emax : Z := 1024.

(** The float [m * 2 ^ e], rounded to nearest. *)
Definition dyadic (m e : Z) : spec_float := binary_normalize prec emax m e false.
Definition of_Z (n : Z) : spec_float := dyadic n 0.

(** [int(x)]: truncation toward zero; it raises on an infinity or a nan. *)
Definition int (x : spec_float) : option Z :=
  match x with
  | S754_zero _ => Some 0
  | S754_finite sign m e =>
      Some (cond_Zopp sign
              (match e with
               | Zneg p => Z.shiftr (Z.pos m) (Z.pos p)
               | _ => Z.pos m * 2 ^ e
               end))
  | S754_infinity _ | S754_nan => None
  end.

(** The deadline; [None] when the computation raises. *)
Definition exptime (seconds now : spec_float) : option spec_float :=
  if SFeqb seconds (of_Z 0) then None
  else
    let resolution := SFdiv prec emax (of_Z 1) seconds in
    let exptime := SFadd prec emax now seconds in
    match int (SFmul prec emax exptime resolution) with
    | Some n =>
        if SFeqb resolution (of_Z 0) then None
        else Some (SFdiv prec emax (of_Z n) resolution)
    | None => None
    end.

End Binary64.

(** ** Resuming a task *)

(** The loop of [wait_for_tasks]: the next id that is in [taskmap], and the
    ids after it. *)
Fixpoint wait_for_tasks_next (registry : gset tid) (coroutines : list tid)
    : option (tid * list tid) :=
  match coroutines with
  | [] => None
  | t :: rest =>
      if decide (t ∈ registry) then Some (t, rest)
      else wait_for_tasks_next registry rest
  end.

(** A generator that raises is finished. *)
Definition closing (task : tid) {A} (m : M A) : M A :=
  fun s => match m s with
           | Raise e s' => Raise e (set_target task closed s')
           | r => r
           end.

(** [Task.run]: [self.target.send(self.sendval)]. *)
Definition Task_run (w : World) (task : tid) : M yielded :=
  let! s := get in
  match target (objects s task) with
  | closed => raise StopIteration
  | Gen k =>
      match k (sendval (objects s task)) with
      | Finish => modify (set_target task closed) >> raise StopIteration
      | Fail e => modify (set_target task closed) >> raise e
      | Yield y k' => modify (set_target task (Gen k')) >> ret y
      end
  | io_epoll_task => closing task (io_epoll_turn (poll w)) >> ret Plain
  | time_poll_task => time_poll_turn (time_time w) >> ret Plain
  | wait_for_tasks coroutines event =>
      match wait_for_tasks_next (taskmap s) coroutines with
      | Some (t, rest) =>
          modify (set_target task (wait_for_tasks rest event)) >>
          ret (Sys (WaitForTask t))
      | None =>
          modify (set_events (fun e => {[event]} ∪ e)) >>
          modify (set_target task closed) >>
          raise StopIteration
      end
  end.

(** ** The loop of [Scheduler.run] *)

(** [for other in others: taskmap[other.tid] = other; ready.put(other)] *)
Fixpoint restore (others : list tid) : M unit :=
  match others with
  | [] => ret tt
  | other :: rest =>
      modify (set_taskmap (fun m => {[other]} ∪ m)) >> ready_put other >> restore rest
  end.

(** The [except StopIteration] clause. *)
Definition notify_exit (task : tid) : M unit :=
  taskmap_pop task >>
  let! s := get in
  match exit_waiting s !! task with
  | Some others => modify (set_exit_waiting (delete task)) >> restore others
  | None => ret tt
  end.

(** [try: m except StopIteration: handler]; any other exception goes on. *)
Definition try_except_StopIteration (m handler : M unit) : M unit :=
  fun s => match m s with
           | Raise StopIteration s' => handler s'
           | r => r
           end.

Inductive status :=
| Dispatched (task : tid)
| Waiting                    (* [ready.get()] blocks on the empty queue *)
| Stopped.                   (* [running] is false: the loop is left *)

(** One iteration of [while self.running].  On the empty queue
    [ready.get()] blocks: the iteration is then [Waiting] and changes
    nothing.  A loop that waits there has tested [running] already, so what
    is stated of [shutdown] is stated for a queue that is not empty. *)
Definition run_iteration (w : World) : M status :=
  let! s := get in
  if running s then
    match ready s with
    | [] => ret Waiting
    | task :: q =>
        modify (set_ready (fun _ => q)) >>
        try_except_StopIteration
          (let! result := Task_run w task in
           match result with
           | Sys c => handle c w task
           | Plain => ready_put task
           end)
          (notify_exit task) >>
        ret (Dispatched task)
    end
  else ret Stopped.

(** The two [new] calls that open [run]. *)
Definition run_start (io_tid time_tid : tid) : M unit :=
  new io_epoll_task io_tid >> new time_poll_task time_tid >> ret tt.

(** [joinall]: the caller then blocks in [event.wait()] until [event] is in
    [events]. *)
Definition joinall (coroutines : list tid) (event : nat) (newtask : tid) : M tid :=
  new (wait_for_tasks coroutines event) newtask.

Definition shutdown : M unit := modify (set_running false).

(** What happens to the scheduler, in order: iterations of its own loop,
    and calls made by other threads between two iterations. *)
Inductive call :=
| Iterate (w : World)
| New (b : body) (newtask : tid)
| Joinall (coroutines : list tid) (event : nat) (newtask : tid)
| Shutdown.

Definition perform (c : call) : M unit :=
  match c with
  | Iterate w => run_iteration w >> ret tt
  | New b newtask => new (Gen (fun _ => b)) newtask >> ret tt
  | Joinall coroutines event newtask => joinall coroutines event newtask >> ret tt
  | Shutdown => shutdown
  end.

Fixpoint perform_all (cs : list call) : M unit :=
  match cs with
  | [] => ret tt
  | c :: rest => perform c >> perform_all rest
  end.

(** ** Where a task is

    Between two iterations of the loop no task is executing, and a task
    the scheduler holds is in the ready queue, in the reactor's waiting set
    [io_waiting], in a bucket of [time_waiting], or in a list of
    [exit_waiting]. *)

Definition io_tasks (s : Scheduler) : list tid := (map_to_list (io_waiting s)).*2.
Definition time_tasks (s : Scheduler) : list tid := concat (time_waiting s).*2.
Definition exit_tasks (s : Scheduler) : list tid :=
  concat (map_to_list (exit_waiting s)).*2.

(** The tasks held in a place where the registry knows them, and all the
    tasks held. *)
Definition registered (s : Scheduler) : list tid :=
  ready s ++ io_tasks s ++ time_tasks s.

Definition placed (s : Scheduler) : list tid :=
  registered s ++ exit_tasks s.

Definition occurrences (t : tid) (l : list tid) : nat :=
  length (filter (fun x => x = t) l).

(** The number of placements of the task [t]. *)
Definition placements (s : Scheduler) (t : tid) : nat := occurrences t (placed s).

(** ** Runs of the scheduler *)

(** The hash of a new [Task] object differs from that of every [Task] the
    scheduler still refers to. *)
Definition fresh (s : Scheduler) (t : tid) : Prop :=
  (t ∉ taskmap s) /\ (t ∉ placed s).

Definition allowed (s : Scheduler) (c : call) : Prop :=
  match c with
  | New _ newtask | Joinall _ _ newtask => fresh s newtask
  | Iterate _ | Shutdown => True
  end.

(** The states between two iterations of a run that has not raised. *)
Inductive reachable : Scheduler -> Prop :=
| reachable_start io_tid time_tid s :
    io_tid <> time_tid ->
    run_start io_tid time_tid Scheduler_init = Return tt s ->
    reachable s
| reachable_step s c s' :
    reachable s -> allowed s c -> perform c s = Return tt s' -> reachable s'.

(** The states a list of calls leads through. *)
Inductive leads : Scheduler -> list call -> Scheduler -> Prop :=
| leads_nil s : leads s [] s
| leads_cons s c s1 cs s' :
    allowed s c -> perform c s = Return tt s1 -> leads s1 cs s' ->
    leads s (c :: cs) s'.

(** The placement invariant, while the tasks of [executing] are held by the
    loop (one task during an iteration, none between two iterations): no
    task is held twice, the registry is made of the executing tasks and of
    those on the ready queue, in [io_waiting] and in [time_waiting], and
    the descriptors of [io_waiting] are those registered with [epoll]. *)
Record Inv_at (executing : list tid) (s : Scheduler) : Prop := mkInv {
  inv_nodup : NoDup (executing ++ placed s);
  inv_registry : forall t, t ∈ taskmap s <-> t ∈ executing ++ registered s;
  inv_epoll : dom (io_waiting s) = dom (epoll s)
}.

Definition Inv (s : Scheduler) : Prop := Inv_at [] s.

(** [task] is in the list of [exit_waiting] kept under its own identifier. *)
Definition exit_member (s : Scheduler) (task : tid) : Prop :=
  exists l, exit_waiting s !! task = Some l /\ task ∈ l.

(** ** Sample coroutines and runs *)

Definition final {A} (o : outcome A) : Scheduler :=
  match o with Return _ s | Raise _ s => s end.

(** A world where nothing happens, and one at a given clock reading. *)
Definition quiet : World := mkWorld 0 [].
Definition at_time (now : Q) : World := mkWorld now [].

(** The scheduler once [run] has submitted its two background tasks, with
    identifiers 1 and 2. *)
Definition started : Scheduler := final (run_start 1 2 Scheduler_init).

(** [def sleep(seconds): yield WaitForTime(seconds)] *)
Definition sleep (seconds : Q) : body :=
  Yield (Sys (WaitForTime seconds)) (fun _ => Finish).

(** A coroutine that waits once for [fileobj] to be readable. *)
Definition reader (fileobj : fd) : body :=
  Yield (Sys (ReadTask fileobj)) (fun _ => Finish).

(** A coroutine that raises. *)
Definition faulty : body := Fail (Failure 0).

(** A coroutine that yields twice, and one that waits for task [t]. *)
Definition worker : body := Yield Plain (fun _ => Yield Plain (fun _ => Finish)).
Definition joiner (t : tid) : body := Yield (Sys (WaitForTask t)) (fun _ => Finish).

(** A coroutine that kills task [t], then waits for [fileobj]. *)
Definition killer_reader (t : tid) (fileobj : fd) : body :=
  Yield (Sys (KillTask t)) (fun _ => reader fileobj).

(** Two tasks wait for the same descriptor. *)
Definition same_descriptor : list call :=
  [New (reader 7) 3; New (reader 7) 4;
   Iterate quiet; Iterate quiet; Iterate quiet; Iterate quiet].

(** A task sleeps one second from 10.5; the clock then reads 11. *)
Definition sleep_one : list call :=
  [New (sleep 1) 3;
   Iterate (at_time (21 # 2)); Iterate (at_time (21 # 2)); Iterate (at_time (21 # 2));
   Iterate (at_time 11); Iterate (at_time 11); Iterate (at_time 11);
   Iterate (at_time 11)].

(** One task sleeps for a duration of zero, and [joinall] waits for it. *)
Definition sleep_zero : list call :=
  [New (sleep 0) 3; Joinall [3] 0%nat 4;
   Iterate quiet; Iterate quiet; Iterate quiet].

(** The time-poll task is killed, and the killer waits for a descriptor:
    the I/O-poll task then runs with nothing else on the ready queue. *)
Definition lonely_poll : list call :=
  [New (killer_reader 2 7) 3;
   Iterate quiet; Iterate quiet; Iterate quiet;
   Iterate quiet; Iterate quiet; Iterate quiet].

(** A task raises while other tasks are runnable. *)
Definition one_fails : list call :=
  [New faulty 3; New worker 4; Iterate quiet; Iterate quiet; Iterate quiet].

(** A task waits for another task, which is still running. *)
Definition join_running : list call :=
  [New (joiner 4) 3; New worker 4; Iterate quiet; Iterate quiet; Iterate quiet].

(** The same run, up to the point where the awaited task is about to
    finish. *)
Definition join_finishing : list call :=
  join_running ++ replicate 6 (Iterate quiet).

(** A task waits for itself. *)
Definition self_join : list call :=
  [New (joiner 3) 3; Iterate quiet; Iterate quiet].

(** ** Views of the containers *)

(** Every task in a list of [exit_waiting] has [True] as the value of its
    next resume: [WaitForTask.handle] stored it when it parked the task. *)
Definition exit_results (s : Scheduler) : Prop :=
  forall k l t, exit_waiting s !! k = Some l -> t ∈ l -> sendval (objects s t) = VTrue.

(** [time_waiting[exptime]]: the bucket kept under a key equal to [exptime]. *)
Fixpoint time_waiting_get (tw : list (Q * list tid)) (exptime : Q) : option (list tid) :=
  match tw with
  | [] => None
  | (k, l) :: tw' =>
      if Qeq_bool k exptime then Some l else time_waiting_get tw' exptime
  end.

(** The tasks that wait on the descriptors of [fdevents], in that order. *)
Definition waiters (s : Scheduler) (fdevents : list fd) : list tid :=
  omap (fun fdesc => io_waiting s !! fdesc) fdevents.

(** A task that has neither completed nor been killed is in the registry
    or in a list of [exit_waiting]. *)
Definition live_known (s : Scheduler) : Prop :=
  forall T, target (objects s T) <> closed -> T ∈ taskmap s \/ T ∈ exit_tasks s.

(** What the next resume of a task does when its generator is suspended
    with the rest [k] and the value [v] is sent: [k v] runs up to its next
    [yield], or to its end. *)
Definition resume (task : tid) (k : value -> body) (v : value) : M yielded :=
  fun s => match k v with
           | Finish => Raise StopIteration (set_target task closed s)
           | Fail e => Raise e (set_target task closed s)
           | Yield y k' => Return y (set_target task (Gen k') s)
           end.

(** ** More sample runs *)

(** A world where [epoll.poll] reports descriptor 7. *)
Definition readable : World := mkWorld 0 [7].

(** A task waits for descriptor 7. *)
Definition reading : list call :=
  [New (reader 7) 3; Iterate quiet; Iterate quiet; Iterate quiet].

(** [joinall] on an identifier that no task has. *)
Definition join_nobody : list call :=
  [Joinall [9] 0%nat 3; Iterate quiet; Iterate quiet].

(** [joinall] on an identifier that no task has and on a running task. *)
Definition join_second : list call :=
  [New worker 3; Joinall [9; 3] 0%nat 4; Iterate quiet; Iterate quiet; Iterate quiet].

(** A coroutine that kills task [t], then goes on. *)
Definition killer (t : tid) : body := Yield (Sys (KillTask t)) (fun _ => worker).

(** A task that kills itself. *)
Definition kills_itself : list call :=
  [New (killer 3) 3; Iterate quiet; Iterate quiet].

(** A task that kills a task that no identifier names. *)
Definition kill_nobody : list call :=
  [New (killer 9) 3; Iterate quiet; Iterate quiet].

(** Task 3 waits for descriptor 7 and task 4 kills it; the loop goes round
    eight more times. *)
Definition kill_parked : list call :=
  [New (reader 7) 3; New (killer 3) 4] ++ replicate 10 (Iterate quiet).

(** Task 3 finishes at its first resume; a task is submitted then whose
    object has the hash that the object of task 3 had. *)
Definition resubmit : list call :=
  [New Finish 3; Iterate quiet; Iterate quiet; Iterate quiet; New worker 3].

(** * Properties *)

Ltac run_monad :=
  unfold bind, ret, raise, get, modify, ready_put in *; cbn in *.

Ltac decide_by_computation := refine (bool_decide_unpack _ _); vm_compute; exact I.

Ltac leads_by_computation :=
  repeat (eapply leads_cons;
          [first [exact I | unfold allowed, fresh; split; decide_by_computation]
          | vm_compute; reflexivity
          | ]);
  apply leads_nil.

(** ** The system call handlers *)

(** The state [KillTask.handle] leaves. *)
Lemma KillTask_handle_state (s : Scheduler) (t task : tid) :
  KillTask_handle t task s =
    Return tt
      (set_ready (fun q => q ++ [task])
         (if decide (t ∈ taskmap s)
          then set_sendval task VTrue (set_target t closed s)
          else set_sendval task VFalse s)).
Proof. unfold KillTask_handle. run_monad. by destruct (decide (t ∈ taskmap s)). Qed.

(** The state [WaitForTask.handle] leaves when the target is registered. *)
Lemma WaitForTask_handle_parks (s : Scheduler) (t task : tid) :
  t ∈ taskmap s -> task ∈ taskmap s ->
  WaitForTask_handle t task s =
    Return tt
      (set_sendval task VTrue
         (set_exit_waiting (insert t (default [] (exit_waiting s !! t) ++ [task]))
            (set_taskmap (fun m => m ∖ {[task]}) s))).
Proof.
  intros Ht Htask.
  unfold WaitForTask_handle, wait_for_exit, taskmap_pop. run_monad.
  rewrite decide_True by done. cbn. rewrite decide_True by done. cbn.
  by destruct (exit_waiting s !! t).
Qed.

(** The state [WaitForTask.handle] leaves when the target is not registered. *)
Lemma WaitForTask_handle_absent (s : Scheduler) (t task : tid) :
  t ∉ taskmap s ->
  WaitForTask_handle t task s =
    Return tt (set_ready (fun q => q ++ [task]) (set_sendval task VFalse s)).
Proof.
  intros Ht. unfold WaitForTask_handle, wait_for_exit. run_monad.
  by rewrite decide_False.
Qed.

(** On a float that is not negative [int] is the floor. *)
Lemma int_floor (x : Q) : (0 <= x)%Q -> int x = Qfloor x.
Proof.
  destruct x as [n d]. unfold Qle, int, Qfloor. cbn. intros Hn.
  apply Z.quot_div_nonneg; lia.
Qed.

(** In exact arithmetic the deadline [WaitForTime.handle] files the task
    under is after the time of the request and not after that time plus
    [seconds]: the grid rounds it down. *)
Lemma WaitForTime_handle_deadline (seconds now : Q) (task : tid) (s : Scheduler) :
  (0 < seconds)%Q -> (0 <= now)%Q ->
  exists exptime,
    WaitForTime_handle seconds now task s = wait_for_time task exptime s /\
    (now < exptime)%Q /\ (exptime <= now + seconds)%Q.
Proof.
  intros Hs Hnow. unfold WaitForTime_handle.
  destruct (Qeq_bool seconds 0) eqn:Hz.
  { apply Qeq_bool_iff in Hz. rewrite Hz in Hs. by apply Qlt_irrefl in Hs. }
  eexists. split; [reflexivity|].
  set (x := ((now + seconds) * (1 / seconds))%Q).
  assert (~ seconds == 0)%Q as Hne by (intros E; rewrite E in Hs; by apply Qlt_irrefl in Hs).
  assert (x * seconds == now + seconds)%Q as Hx by (unfold x; field; done).
  assert (1 <= x)%Q as Hx1.
  { apply (Qmult_le_r _ _ seconds Hs). rewrite Hx. lra. }
  rewrite int_floor by lra.
  pose proof (Qfloor_le x) as Hle. pose proof (Qlt_floor x) as Hlt.
  rewrite inject_Z_plus in Hlt.
  set (f := inject_Z (Qfloor x)) in *.
  assert (f / (1 / seconds) == f * seconds)%Q as -> by (field; lra).
  split.
  - assert (x * seconds < (f + 1) * seconds)%Q as H by (by apply Qmult_lt_r).
    rewrite Hx in H. lra.
  - assert (f * seconds <= x * seconds)%Q as H by (by apply Qmult_le_r).
    rewrite Hx in H. lra.
Qed.

(** No handler raises [StopIteration]. *)
Lemma handle_raises c w task s e s' :
  handle c w task s = Raise e s' -> e <> StopIteration.
Proof.
  destruct c as [t|t|sec|f|f]; unfold handle.
  - by rewrite KillTask_handle_state.
  - unfold WaitForTask_handle, wait_for_exit, taskmap_pop. run_monad.
    destruct (decide (t ∈ taskmap s)); cbn; [|done].
    destruct (decide (task ∈ taskmap s)); cbn; [|by intros [= <- _]].
    by destruct (exit_waiting s !! t).
  - unfold WaitForTime_handle, wait_for_time. destruct (Qeq_bool sec 0); run_monad; [|done].
    by intros [= <- _].
  - unfold wait_for_read, epoll_register. run_monad. destruct (epoll s !! f); cbn; [|done].
    by intros [= <- _].
  - unfold wait_for_write, epoll_register. run_monad. destruct (epoll s !! f); cbn; [|done].
    by intros [= <- _].
Qed.

(** Only [WaitForTask] on a registered identifier takes an identifier out of
    the registry: that of the calling task. *)
Lemma handle_taskmap c w task s s' T :
  handle c w task s = Return tt s' -> T ∈ taskmap s -> T ∉ taskmap s' ->
  T = task /\ exists t, c = WaitForTask t /\ t ∈ taskmap s.
Proof.
  destruct c as [t|t|sec|f|f]; unfold handle.
  - rewrite KillTask_handle_state. intros [= <-]. cbn.
    by destruct (decide (t ∈ taskmap s)).
  - destruct (decide (t ∈ taskmap s)) as [Hin|Hout].
    + unfold WaitForTask_handle, wait_for_exit, taskmap_pop. run_monad.
      rewrite decide_True by done. cbn.
      destruct (decide (task ∈ taskmap s)); cbn; [|done].
      destruct (exit_waiting s !! t); cbn; intros [= <-]; cbn; intros HT HnT;
        (split; [|by exists t]); destruct (decide (T = task)); set_solver.
    + rewrite (WaitForTask_handle_absent s t task Hout). by intros [= <-].
  - unfold WaitForTime_handle, wait_for_time. destruct (Qeq_bool sec 0); run_monad; [done|].
    intros [= <-]. done.
  - unfold wait_for_read, epoll_register. run_monad. destruct (epoll s !! f); cbn; [done|].
    intros [= <-]. done.
  - unfold wait_for_write, epoll_register. run_monad. destruct (epoll s !! f); cbn; [done|].
    intros [= <-]. done.
Qed.

(** ** Resuming a task *)

(** What [__epoll] can raise. *)
Lemma epoll_events_raises fdevents s e s' :
  epoll_events fdevents s = Raise e s' -> e = KeyError \/ e = IOError.
Proof.
  revert s. induction fdevents as [|f rest IH]; intros s; cbn; [done|].
  unfold epoll_unregister. run_monad.
  destruct (io_waiting s !! f) as [t|]; cbn; [|intros [= <- _]; by left].
  destruct (epoll s !! f); cbn; [apply IH|intros [= <- _]; by right].
Qed.

Lemma epoll_events_taskmap fdevents s s' :
  epoll_events fdevents s = Return tt s' -> taskmap s' = taskmap s.
Proof.
  revert s. induction fdevents as [|f rest IH]; intros s; cbn.
  - by intros [= <-].
  - unfold epoll_unregister. run_monad.
    destruct (io_waiting s !! f) as [t|]; cbn; [|done].
    destruct (epoll s !! f); cbn; [|done].
    intros H. by apply IH in H.
Qed.

Lemma epoll_events_exit_waiting fdevents s s' :
  epoll_events fdevents s = Return tt s' -> exit_waiting s' = exit_waiting s.
Proof.
  revert s. induction fdevents as [|f rest IH]; intros s; cbn.
  - by intros [= <-].
  - unfold epoll_unregister. run_monad.
    destruct (io_waiting s !! f) as [t|]; cbn; [|done].
    destruct (epoll s !! f); cbn; [|done].
    intros H. by apply IH in H.
Qed.

(** The I/O-poll task polls with timeout 0 whenever [io_waiting] is not
    empty. *)
Lemma io_epoll_turn_timeout (fdevents : list fd) (s : Scheduler) :
  io_waiting s <> ∅ -> io_epoll_turn fdevents s = __epoll 0 fdevents s.
Proof.
  intros Hio. unfold io_epoll_turn. run_monad. by rewrite decide_False.
Qed.

(** The I/O-poll task does not poll when [io_waiting] is empty. *)
Lemma io_epoll_turn_idle (fdevents : list fd) (s : Scheduler) :
  io_waiting s = ∅ -> io_epoll_turn fdevents s = Return tt s.
Proof.
  intros Hio. unfold io_epoll_turn. run_monad. by rewrite decide_True.
Qed.

(** A resume that signals completion leaves the containers as they were. *)
Lemma Task_run_StopIteration w task s s1 :
  Task_run w task s = Raise StopIteration s1 ->
  ready s1 = ready s /\ taskmap s1 = taskmap s /\
  exit_waiting s1 = exit_waiting s /\ io_waiting s1 = io_waiting s /\
  time_waiting s1 = time_waiting s /\ epoll s1 = epoll s.
Proof.
  unfold Task_run. run_monad.
  destruct (target (objects s task)) as [k| | |cs ev|]; cbn.
  - destruct (k _); cbn; intros [= <-] || intros [= -> <-] || intros ?; done.
  - unfold closing, io_epoll_turn, __epoll. run_monad.
    destruct (decide _); cbn; [done|].
    destruct (epoll_events _ _) as [|e s2] eqn:E; cbn; [done|].
    intros [= -> _]. apply epoll_events_raises in E. naive_solver.
  - unfold time_poll_turn. run_monad. done.
  - destruct (wait_for_tasks_next _ _) as [[t rest]|]; cbn; [done|].
    intros [= <-]. done.
  - intros [= <-]. done.
Qed.

Lemma Task_run_taskmap w task s y s1 :
  Task_run w task s = Return y s1 -> taskmap s1 = taskmap s.
Proof.
  unfold Task_run. run_monad.
  destruct (target (objects s task)) as [k| | |cs ev|]; cbn.
  - destruct (k _); cbn; try done. by intros [= _ <-].
  - unfold closing, io_epoll_turn, __epoll. run_monad.
    destruct (decide _); cbn; [by intros [= _ <-]|].
    destruct (epoll_events _ _) as [[] s2|e s2] eqn:E; cbn; [|done].
    intros [= _ <-]. by apply epoll_events_taskmap in E.
  - unfold time_poll_turn. run_monad. by intros [= _ <-].
  - destruct (wait_for_tasks_next _ _) as [[t rest]|]; cbn; [|done].
    by intros [= _ <-].
  - done.
Qed.

Lemma Task_run_exit_waiting w task s y s1 :
  Task_run w task s = Return y s1 -> exit_waiting s1 = exit_waiting s.
Proof.
  unfold Task_run. run_monad.
  destruct (target (objects s task)) as [k| | |cs ev|]; cbn.
  - destruct (k _); cbn; try done. by intros [= _ <-].
  - unfold closing, io_epoll_turn, __epoll. run_monad.
    destruct (decide _); cbn; [by intros [= _ <-]|].
    destruct (epoll_events _ _) as [[] s2|e s2] eqn:E; cbn; [|done].
    intros [= _ <-]. by apply epoll_events_exit_waiting in E.
  - unfold time_poll_turn. run_monad. by intros [= _ <-].
  - destruct (wait_for_tasks_next _ _) as [[t rest]|]; cbn; [|done].
    by intros [= _ <-].
  - done.
Qed.

(** ** One iteration of the loop *)

(** The loop that puts the waiters back. *)
Lemma restore_spec others s :
  exists s', restore others s = Return tt s' /\
    taskmap s' = list_to_set others ∪ taskmap s /\
    ready s' = ready s ++ others /\
    exit_waiting s' = exit_waiting s /\ io_waiting s' = io_waiting s /\
    time_waiting s' = time_waiting s /\ epoll s' = epoll s /\
    running s' = running s /\ objects s' = objects s.
Proof.
  revert s. induction others as [|o rest IH]; intros s; cbn.
  - eexists; split; [reflexivity|]. repeat split; try done.
    + set_solver.
    + by rewrite app_nil_r.
  - run_monad. destruct (IH (set_ready (fun q => q ++ [o]) (set_taskmap (fun m => {[o]} ∪ m) s)))
      as (s' & -> & Htm & Hr & ? & ? & ? & ? & ? & ?).
    eexists; split; [reflexivity|]. cbn in *. repeat split; try done.
    + rewrite Htm. set_solver.
    + rewrite Hr. by rewrite <- app_assoc.
Qed.

(** The state the [except StopIteration] clause leaves. *)
Lemma notify_exit_spec task s s' :
  notify_exit task s = Return tt s' ->
  task ∈ taskmap s /\
  taskmap s' = list_to_set (default [] (exit_waiting s !! task)) ∪ (taskmap s ∖ {[task]}) /\
  ready s' = ready s ++ default [] (exit_waiting s !! task) /\
  exit_waiting s' = delete task (exit_waiting s) /\
  io_waiting s' = io_waiting s /\
  time_waiting s' = time_waiting s /\
  epoll s' = epoll s.
Proof.
  unfold notify_exit, taskmap_pop. run_monad.
  destruct (decide (task ∈ taskmap s)); cbn; [|done].
  destruct (exit_waiting s !! task) as [others|] eqn:E; cbn.
  - destruct (restore_spec others
                (set_exit_waiting (delete task) (set_taskmap (fun m => m ∖ {[task]}) s)))
      as (s2 & -> & Htm & Hr & Hex & Hio & Htw & Hep & _).
    intros [= <-]. by cbn in *.
  - intros [= <-]. cbn. repeat split; try done.
    + set_solver.
    + by rewrite app_nil_r.
    + by rewrite delete_id.
Qed.

(** The clause does not raise when the task is in the registry. *)
Lemma notify_exit_total task s :
  task ∈ taskmap s -> exists s', notify_exit task s = Return tt s'.
Proof.
  intros Htask. unfold notify_exit, taskmap_pop. run_monad.
  rewrite decide_True by done. cbn.
  destruct (exit_waiting s !! task) as [others|]; cbn; [|by eexists].
  destruct (restore_spec others
              (set_exit_waiting (delete task) (set_taskmap (fun m => m ∖ {[task]}) s)))
    as (s' & -> & _).
  by exists s'.
Qed.

Lemma run_iteration_completes w s task q s1 s' :
  running s = true -> ready s = task :: q ->
  Task_run w task (set_ready (fun _ => q) s) = Raise StopIteration s1 ->
  notify_exit task s1 = Return tt s' ->
  run_iteration w s = Return (Dispatched task) s'.
Proof.
  intros Hrun Hready Hstop Hn.
  cbv beta iota delta [run_iteration try_except_StopIteration bind get modify ret].
  rewrite Hrun, Hready. cbv beta iota. rewrite Hstop. cbv beta iota. by rewrite Hn.
Qed.

Lemma run_iteration_raises w s task q e s1 :
  running s = true -> ready s = task :: q ->
  Task_run w task (set_ready (fun _ => q) s) = Raise e s1 ->
  e <> StopIteration ->
  run_iteration w s = Raise e s1.
Proof.
  intros Hrun Hready Hraise He.
  cbv beta iota delta [run_iteration try_except_StopIteration bind get modify ret].
  rewrite Hrun, Hready. cbv beta iota. rewrite Hraise. cbv beta iota. by destruct e.
Qed.

Lemma notify_exit_taskmap task s s' T :
  notify_exit task s = Return tt s' -> T ∈ taskmap s -> T ∉ taskmap s' -> T = task.
Proof.
  unfold notify_exit, taskmap_pop. run_monad.
  destruct (decide (task ∈ taskmap s)); cbn; [|done].
  destruct (exit_waiting s !! task) as [others|]; cbn.
  - destruct (restore_spec others
                (set_exit_waiting (delete task) (set_taskmap (fun m => m ∖ {[task]}) s)))
      as (s2 & -> & Htm & _). cbn in Htm.
    intros [= <-]. rewrite Htm. destruct (decide (T = task)); set_solver.
  - intros [= <-]. cbn. destruct (decide (T = task)); set_solver.
Qed.

(** The ways an iteration returns. *)
Lemma run_iteration_cases w s st s' :
  run_iteration w s = Return st s' ->
  (running s = false /\ st = Stopped /\ s' = s) \/
  (running s = true /\ ready s = [] /\ st = Waiting /\ s' = s) \/
  (exists task q,
     running s = true /\ ready s = task :: q /\ st = Dispatched task /\
     ((exists s1, Task_run w task (set_ready (fun _ => q) s) = Return Plain s1 /\
                  s' = set_ready (fun r => r ++ [task]) s1) \/
      (exists c s1, Task_run w task (set_ready (fun _ => q) s) = Return (Sys c) s1 /\
                    handle c w task s1 = Return tt s') \/
      (exists s1, Task_run w task (set_ready (fun _ => q) s) = Raise StopIteration s1 /\
                  notify_exit task s1 = Return tt s'))).
Proof.
  unfold run_iteration. unfold bind at 1. unfold get.
  destruct (running s) eqn:Hrun; [|intros [= <- <-]; by left].
  destruct (ready s) as [|task q] eqn:Hready; [intros [= <- <-]; right; by left|].
  intros H. right; right. exists task, q. split; [done|]. split; [done|].
  unfold bind at 1 in H. unfold modify at 1 in H.
  unfold bind at 1 in H. unfold try_except_StopIteration in H.
  unfold bind at 1 in H.
  destruct (Task_run w task (set_ready (fun _ => q) s)) as [y s1|e s1] eqn:Hrunres.
  - destruct y as [|c].
    + run_monad. injection H as <- <-. split; [done|]. left. by exists s1.
    + destruct (handle c w task s1) as [[] s2|e s2] eqn:Hh.
      * run_monad. injection H as <- <-. split; [done|]. right; left. by exists c, s1.
      * apply handle_raises in Hh. by destruct e.
  - destruct e; try done.
    destruct (notify_exit task s1) as [[] s2|e s2] eqn:Hn; [|done].
    run_monad. injection H as <- <-. split; [done|]. right; right. by exists s1.
Qed.

Lemma run_iteration_Sys w s task q c s1 s' :
  running s = true -> ready s = task :: q ->
  Task_run w task (set_ready (fun _ => q) s) = Return (Sys c) s1 ->
  handle c w task s1 = Return tt s' ->
  run_iteration w s = Return (Dispatched task) s'.
Proof.
  intros Hrun Hready Hyield Hh.
  cbv beta iota delta [run_iteration try_except_StopIteration bind get modify ret].
  rewrite Hrun, Hready. cbv beta iota. rewrite Hyield. cbv beta iota. by rewrite Hh.
Qed.

(** ** Containers *)

Section containers.
Context {V : Type}.
Implicit Types (m : gmap Z V).

Lemma values_insert_fresh m k v :
  m !! k = None -> (map_to_list (<[k:=v]> m)).*2 ≡ₚ v :: (map_to_list m).*2.
Proof. intros Hk. by rewrite map_to_list_insert. Qed.

Lemma values_delete m k v :
  m !! k = Some v -> (map_to_list m).*2 ≡ₚ v :: (map_to_list (delete k m)).*2.
Proof. intros Hk. by rewrite <- (map_to_list_delete m k v Hk). Qed.

Lemma values_insert m k v :
  (map_to_list (<[k:=v]> m)).*2 ≡ₚ v :: (map_to_list (delete k m)).*2.
Proof.
  rewrite <- insert_delete_eq. apply values_insert_fresh, lookup_delete_eq.
Qed.

End containers.

Lemma exit_lists_split (ex : gmap Z (list Z)) k :
  concat (map_to_list ex).*2 ≡ₚ
    default [] (ex !! k) ++ concat (map_to_list (delete k ex)).*2.
Proof.
  destruct (ex !! k) as [l|] eqn:E; cbn.
  - by rewrite (values_delete ex k l E).
  - by rewrite delete_id.
Qed.

Lemma exit_lists_insert (ex : gmap Z (list Z)) k l :
  concat (map_to_list (<[k:=l]> ex)).*2 ≡ₚ
    l ++ concat (map_to_list (delete k ex)).*2.
Proof. by rewrite values_insert. Qed.

Lemma time_tasks_append tw exptime task :
  concat (time_waiting_append tw exptime task).*2 ≡ₚ task :: concat tw.*2.
Proof.
  induction tw as [|[k l] tw IH]; cbn; [done|].
  destruct (Qeq_bool k exptime); cbn.
  - rewrite <- app_assoc. cbn. by rewrite <- Permutation_middle.
  - rewrite IH. by rewrite <- Permutation_middle.
Qed.

Lemma time_tasks_filter (tw : list (Q * list Z)) (P : Q * list Z -> bool) :
  concat (filter (fun b => P b = true) tw).*2 ++
  concat (filter (fun b => P b = false) tw).*2 ≡ₚ concat tw.*2.
Proof.
  induction tw as [|b tw IH]; [done|].
  rewrite !filter_cons. destruct (P b) eqn:E.
  - rewrite decide_True by done. rewrite decide_False by done.
    rewrite !fmap_cons. cbn [concat]. rewrite <- app_assoc. by rewrite IH.
  - rewrite decide_False by done. rewrite decide_True by done.
    rewrite !fmap_cons. cbn [concat]. rewrite <- IH.
    rewrite !app_assoc. f_equiv. apply Permutation_app_comm.
Qed.

Lemma exit_member_placed s k l t :
  exit_waiting s !! k = Some l -> t ∈ l -> t ∈ exit_tasks s.
Proof.
  intros Hk Ht. unfold exit_tasks.
  rewrite (exit_lists_split (exit_waiting s) k), Hk. cbn. set_solver.
Qed.

(** ** The placement invariant *)

(** The invariant is kept when the registered tasks are only moved around. *)
Lemma Inv_at_perm E E' s s' :
  Inv_at E s ->
  E' ++ registered s' ≡ₚ E ++ registered s ->
  exit_waiting s' = exit_waiting s ->
  taskmap s' = taskmap s ->
  dom (io_waiting s') = dom (epoll s') ->
  Inv_at E' s'.
Proof.
  intros [Hnd Hreg Hep] Hperm Hex Htm Hdom. split.
  - unfold placed, exit_tasks in *. rewrite Hex. by rewrite app_assoc, Hperm, <- app_assoc.
  - intros t. rewrite Htm, Hperm. apply Hreg.
  - done.
Qed.

Lemma Inv_dequeue s task q :
  Inv s -> ready s = task :: q -> Inv_at [task] (set_ready (fun _ => q) s).
Proof.
  intros HI Hready. eapply Inv_at_perm; [exact HI|..]; try done.
  - unfold registered. cbn. by rewrite Hready.
  - apply HI.
Qed.

Lemma Inv_requeue s task :
  Inv_at [task] s -> Inv (set_ready (fun q => q ++ [task]) s).
Proof.
  intros HI. eapply Inv_at_perm; [exact HI|..]; try done.
  - unfold registered. cbn. solve_Permutation.
  - apply HI.
Qed.

Lemma epoll_events_Inv E fdevents s s' :
  epoll_events fdevents s = Return tt s' -> Inv_at E s -> Inv_at E s'.
Proof.
  revert s. induction fdevents as [|f rest IH]; intros s; cbn.
  - by intros [= <-].
  - unfold epoll_unregister. run_monad.
    destruct (io_waiting s !! f) as [t|] eqn:Hio; cbn; [|done].
    destruct (epoll s !! f) eqn:Hep; cbn; [|done].
    intros H HI. apply IH in H; [done|].
    eapply Inv_at_perm; [exact HI|..]; try done.
    + unfold registered, io_tasks. cbn.
      rewrite (values_delete (io_waiting s) f t Hio). solve_Permutation.
    + cbn. rewrite !dom_delete_L. by rewrite (inv_epoll _ _ HI).
Qed.

Lemma Task_run_Inv w task s y s1 :
  Task_run w task s = Return y s1 -> Inv_at [task] s -> Inv_at [task] s1.
Proof.
  unfold Task_run. run_monad.
  destruct (target (objects s task)) as [k| | |cs ev|]; cbn.
  - destruct (k _); cbn; try done. intros [= _ <-] HI.
    eapply Inv_at_perm; [exact HI|..]; try done. apply HI.
  - unfold closing, io_epoll_turn, __epoll. run_monad.
    destruct (decide _); cbn; [by intros [= _ <-]|].
    destruct (epoll_events _ _) as [[] s2|e s2] eqn:Hev; cbn; [|done].
    intros [= _ <-] HI. apply (epoll_events_Inv _ _ _ _ Hev).
    eapply Inv_at_perm; [exact HI|..]; try done. apply HI.
  - unfold time_poll_turn. run_monad. intros [= _ <-] HI.
    eapply Inv_at_perm; [exact HI|..]; try done; [|apply HI].
    unfold registered, time_tasks. cbn.
    rewrite <- (time_tasks_filter (time_waiting s) (due (time_time w))).
    solve_Permutation.
  - destruct (wait_for_tasks_next _ _) as [[t rest]|]; cbn; [|done].
    intros [= _ <-] HI.
    eapply Inv_at_perm; [exact HI|..]; try done. apply HI.
  - done.
Qed.

Lemma Inv_at_not_registered task s :
  Inv_at [task] s -> task ∉ placed s.
Proof. intros [Hnd _ _]. cbn in Hnd. by apply NoDup_cons in Hnd as [? _]. Qed.

Lemma wait_for_io_Inv (mask : eventmask) task f s s' :
  (modify (set_io_waiting (insert f task)) >> epoll_register f mask) s = Return tt s' ->
  Inv_at [task] s -> Inv s'.
Proof.
  unfold epoll_register. run_monad.
  destruct (epoll s !! f) eqn:Hep; cbn; [done|]. intros [= <-] HI.
  assert (io_waiting s !! f = None) as Hio.
  { apply not_elem_of_dom. rewrite (inv_epoll _ _ HI). by apply not_elem_of_dom. }
  eapply Inv_at_perm; [exact HI|..]; try done.
  - unfold registered, io_tasks. cbn.
    rewrite (values_insert_fresh (io_waiting s) f task Hio). solve_Permutation.
  - cbn. rewrite !dom_insert_L. by rewrite (inv_epoll _ _ HI).
Qed.

Lemma handle_Inv c w task s s' :
  handle c w task s = Return tt s' -> Inv_at [task] s -> Inv s'.
Proof.
  destruct c as [t|t|sec|f|f]; unfold handle.
  - unfold KillTask_handle. run_monad.
    destruct (decide (t ∈ taskmap s)); cbn; intros [= <-] HI;
      (eapply Inv_at_perm; [exact HI|..]; try done; [|apply HI]);
      unfold registered; cbn; solve_Permutation.
  - unfold WaitForTask_handle, wait_for_exit, taskmap_pop. run_monad.
    destruct (decide (t ∈ taskmap s)); cbn.
    + destruct (decide (task ∈ taskmap s)); cbn; [|done].
      intros H HI.
      assert (s' = set_sendval task VTrue
                     (set_exit_waiting (insert t (default [] (exit_waiting s !! t) ++ [task]))
                        (set_taskmap (fun m => m ∖ {[task]}) s))) as ->.
      { destruct (exit_waiting s !! t); cbn in *; by injection H as <-. }
      clear H. pose proof (Inv_at_not_registered _ _ HI) as Hfresh.
      destruct HI as [Hnd Hreg Hep]. split; cbn.
      * unfold placed, exit_tasks in *. cbn in *.
        rewrite exit_lists_insert.
        rewrite (exit_lists_split (exit_waiting s) t) in Hnd.
        eapply (NoDup_Permutation_proper); [|exact Hnd]. 
        unfold registered. cbn. solve_Permutation.
      * intros x. unfold registered in *. cbn in *.
        rewrite elem_of_difference, Hreg.
        unfold placed, registered in Hfresh. set_solver.
      * done.
    + intros [= <-] HI.
      eapply Inv_at_perm; [exact HI|..]; try done; [|apply HI].
      unfold registered; cbn; solve_Permutation.
  - unfold WaitForTime_handle, wait_for_time. destruct (Qeq_bool sec 0); run_monad; [done|].
    intros [= <-] HI.
    eapply Inv_at_perm; [exact HI|..]; try done; [|apply HI].
    unfold registered, time_tasks. cbn. rewrite time_tasks_append. solve_Permutation.
  - apply wait_for_io_Inv.
  - apply wait_for_io_Inv.
Qed.

Lemma notify_exit_Inv task s s' :
  notify_exit task s = Return tt s' -> Inv_at [task] s -> Inv s'.
Proof.
  intros H HI. apply notify_exit_spec in H as (_ & Htm & Hr & Hex & Hio & Htw & Hep).
  pose proof (Inv_at_not_registered _ _ HI) as Hfresh.
  destruct HI as [Hnd Hreg Hdom]. split; cbn.
  - unfold placed, registered, io_tasks, time_tasks, exit_tasks in *.
    rewrite Hr, Hex, Hio, Htw.
    cbn in Hnd. apply NoDup_cons in Hnd as [_ Hnd].
    rewrite (exit_lists_split (exit_waiting s) task) in Hnd.
    eapply (NoDup_Permutation_proper); [|exact Hnd]. solve_Permutation.
  - intros x. unfold placed, registered, io_tasks, time_tasks, exit_tasks in *.
    rewrite Htm, Hr, Hio, Htw. cbn in Hreg.
    rewrite elem_of_union, elem_of_list_to_set, elem_of_difference, Hreg.
    set_solver.
  - by rewrite Hio, Hep.
Qed.

Lemma new_Inv g t s s' r :
  new g t s = Return r s' -> fresh s t -> Inv s -> Inv s'.
Proof.
  unfold new. run_monad. intros [= _ <-] [Hnt Hnp] [Hnd Hreg Hdom]. split; cbn.
  - unfold placed, registered in *. cbn in *.
    assert (NoDup (t :: (ready s ++ io_tasks s ++ time_tasks s) ++ exit_tasks s)) as Hnd'
      by by apply NoDup_cons.
    eapply (NoDup_Permutation_proper); [|exact Hnd']. solve_Permutation.
  - intros x. unfold registered in *. cbn in *.
    rewrite elem_of_union, Hreg. set_solver.
  - done.
Qed.

Lemma run_iteration_Inv w s st s' :
  run_iteration w s = Return st s' -> Inv s -> Inv s'.
Proof.
  intros H HI. apply run_iteration_cases in H.
  destruct H as [(_ & _ & ->)|[(_ & _ & _ & ->)|(task & q & _ & Hready & _ & Hcase)]];
    [done|done|].
  pose proof (Inv_dequeue _ _ _ HI Hready) as HI0.
  destruct Hcase as [(s1 & Hrun & ->)|[(c & s1 & Hrun & Hh)|(s1 & Hrun & Hn)]].
  - apply Inv_requeue. by eapply Task_run_Inv.
  - eapply handle_Inv; [exact Hh|]. by eapply Task_run_Inv.
  - eapply notify_exit_Inv; [exact Hn|].
    apply Task_run_StopIteration in Hrun as (Hr & Htm & Hex & Hio & Htw & Hep).
    eapply Inv_at_perm; [exact HI0|..]; try done.
    + unfold registered, io_tasks, time_tasks. by rewrite Hr, Hio, Htw.
    + rewrite Hio, Hep. apply HI0.
Qed.

Lemma perform_Inv c s s' :
  perform c s = Return tt s' -> allowed s c -> Inv s -> Inv s'.
Proof.
  destruct c as [w|b t|cs ev t|]; unfold perform, allowed.
  - unfold bind at 1. destruct (run_iteration w s) as [st s2|] eqn:Hit; [|done].
    intros [= <-] _. by eapply run_iteration_Inv.
  - unfold bind at 1. destruct (new _ t s) as [r s2|] eqn:Hnew; [|done].
    intros [= <-]. by eapply new_Inv.
  - unfold bind at 1, joinall. destruct (new _ t s) as [r s2|] eqn:Hnew; [|done].
    intros [= <-]. by eapply new_Inv.
  - unfold shutdown. run_monad. intros [= <-] _ HI.
    eapply Inv_at_perm; [exact HI|..]; try done. apply HI.
Qed.

Lemma Scheduler_init_Inv : Inv Scheduler_init.
Proof.
  split; cbn.
  - unfold placed, registered, io_tasks, time_tasks, exit_tasks. cbn.
    rewrite !map_to_list_empty. cbn. constructor.
  - intros t. unfold registered, io_tasks, time_tasks. cbn.
    rewrite !map_to_list_empty. cbn. set_solver.
  - by rewrite !dom_empty_L.
Qed.

(** The placement invariant holds between two iterations of every run that
    has not raised. *)
Theorem reachable_Inv s : reachable s -> Inv s.
Proof.
  induction 1 as [io_tid time_tid s Hne Hstart|s c s' _ IH Hall Hstep].
  - unfold run_start in Hstart. unfold bind at 1 in Hstart.
    destruct (new io_epoll_task io_tid Scheduler_init) as [r1 s1|] eqn:H1; [|done].
    unfold bind at 1 in Hstart.
    destruct (new time_poll_task time_tid s1) as [r2 s2|] eqn:H2; [|done].
    injection Hstart as <-.
    eapply new_Inv; [exact H2| |].
    + unfold new in H1. run_monad. injection H1 as _ <-.
      split; cbn.
      * set_solver.
      * unfold placed, registered, io_tasks, time_tasks, exit_tasks. cbn.
        rewrite !map_to_list_empty. cbn. set_solver.
    + eapply new_Inv; [exact H1| |apply Scheduler_init_Inv].
      split; cbn; [set_solver|].
      unfold placed, registered, io_tasks, time_tasks, exit_tasks. cbn.
      rewrite !map_to_list_empty. cbn. set_solver.
  - by eapply perform_Inv.
Qed.

(** A run from a reachable state leads to reachable states. *)
Lemma leads_reachable s cs s' : leads s cs s' -> reachable s -> reachable s'.
Proof.
  induction 1 as [s|s c s1 cs s' Hall Hc _ IH]; intros Hr; [done|].
  apply IH. by eapply reachable_step.
Qed.

Lemma started_reachable : reachable started.
Proof. by apply (reachable_start 1 2). Qed.

Lemma occurrences_absent (t : tid) (l : list tid) :
  t ∉ l -> occurrences t l = 0%nat.
Proof.
  unfold occurrences. induction l as [|x l IH]; intros Hin; [done|].
  rewrite filter_cons. apply not_elem_of_cons in Hin as [Hne Hin].
  rewrite decide_False by done. by apply IH.
Qed.

(** An element of a list without duplicates occurs once. *)
Lemma occurrences_NoDup (t : tid) (l : list tid) :
  NoDup l -> t ∈ l -> occurrences t l = 1%nat.
Proof.
  induction 1 as [|x l Hx Hnd IH]; intros Hin.
  - by apply elem_of_nil in Hin.
  - unfold occurrences in *. rewrite filter_cons. destruct (decide (x = t)) as [->|Hne].
    + cbn. f_equal. by apply (occurrences_absent t l).
    + apply IH. apply elem_of_cons in Hin as [->|Hin]; done.
Qed.

(** X1. In every state between two iterations of a run that has not raised, a
    task of the registry, or of a list of [exit_waiting], is in exactly one
    placement. *)
Theorem reachable_one_placement (s : Scheduler) (t : tid) :
  reachable s -> t ∈ taskmap s \/ t ∈ exit_tasks s -> placements s t = 1%nat.
Proof.
  intros Hreach Ht. destruct (reachable_Inv s Hreach) as [Hnd Hreg _].
  apply occurrences_NoDup; [exact Hnd|].
  unfold placed. destruct Ht as [Ht|Ht]; [|set_solver].
  apply Hreg in Ht. set_solver.
Qed.

(** The task the loop dispatches is in the registry. *)
Lemma reachable_dispatched_registered (s : Scheduler) (task : tid) (q : list tid) :
  reachable s -> ready s = task :: q -> task ∈ taskmap s.
Proof.
  intros Hreach Hready. apply (inv_registry _ _ (reachable_Inv s Hreach)).
  unfold registered. rewrite Hready. set_solver.
Qed.

(** X2. A second waiter on a descriptor: the task that was waiting is still in
    the registry and is held nowhere, and [epoll.register] raises. *)
Lemma wait_for_read_drops_waiter (s : Scheduler) (a task : tid) (f : fd) :
  Inv_at [task] s -> io_waiting s !! f = Some a ->
  exists s',
    wait_for_read task f s = Raise IOError s' /\
    a ∈ taskmap s' /\ (a ∉ placed s') /\ io_waiting s' !! f = Some task.
Proof.
  intros [Hnd Hreg Hdom] Hio.
  assert (is_Some (epoll s !! f)) as [mask Hep].
  { apply elem_of_dom. rewrite <- Hdom. by apply elem_of_dom. }
  unfold wait_for_read, epoll_register. run_monad. rewrite Hep.
  eexists. split; [reflexivity|]. cbn.
  split; [|split].
  - apply Hreg. unfold registered, io_tasks.
    rewrite (values_delete (io_waiting s) f a Hio). set_solver.
  - unfold placed, registered, io_tasks in *. cbn [io_waiting set_io_waiting ready
      time_tasks exit_tasks time_waiting exit_waiting].
    rewrite values_insert.
    rewrite (values_delete (io_waiting s) f a Hio) in Hnd.
    assert (NoDup (a :: task :: ready s ++ (map_to_list (delete f (io_waiting s))).*2
                     ++ time_tasks s ++ exit_tasks s)) as Hnd'.
    { eapply NoDup_Permutation_proper; [|exact Hnd]. solve_Permutation. }
    apply NoDup_cons in Hnd' as [Ha _]. set_solver.
  - apply lookup_insert_eq.
Qed.

(** ** Tasks in a list of [exit_waiting] *)

Lemma handle_keeps_waiter c w x s s' t l W :
  handle c w x s = Return tt s' ->
  exit_waiting s !! t = Some l -> W ∈ l ->
  exists l', exit_waiting s' !! t = Some l' /\ W ∈ l'.
Proof.
  intros H Hl Hin. destruct c as [k|k|sec|f|f]; unfold handle in H.
  - rewrite KillTask_handle_state in H. injection H as <-. exists l. cbn.
    by destruct (decide (k ∈ taskmap s)).
  - unfold WaitForTask_handle, wait_for_exit, taskmap_pop in H. run_monad.
    destruct (decide (k ∈ taskmap s)); cbn in H.
    + destruct (decide (x ∈ taskmap s)); cbn in H; [|done].
      destruct (decide (k = t)) as [->|Hne].
      * rewrite Hl in H. cbn in H. injection H as <-.
        exists (l ++ [x]). cbn. rewrite lookup_insert_eq. split; [done|set_solver].
      * exists l. destruct (exit_waiting s !! k); cbn in H; injection H as <-; cbn;
          by rewrite lookup_insert_ne.
    + injection H as <-. by exists l.
  - unfold WaitForTime_handle, wait_for_time in H.
    destruct (Qeq_bool sec 0); run_monad; [done|]. injection H as <-. by exists l.
  - unfold wait_for_read, epoll_register in H. run_monad.
    destruct (epoll s !! f); cbn in H; [done|]. injection H as <-. by exists l.
  - unfold wait_for_write, epoll_register in H. run_monad.
    destruct (epoll s !! f); cbn in H; [done|]. injection H as <-. by exists l.
Qed.

(** A task in the list of [exit_waiting] of [t] stays there until an
    iteration in which [t] signals completion, which puts it back in the
    registry and on the ready queue. *)
Lemma perform_keeps_waiter c s s' t l W :
  perform c s = Return tt s' ->
  exit_waiting s !! t = Some l -> W ∈ l ->
  (exists l', exit_waiting s' !! t = Some l' /\ W ∈ l') \/
  (exists w q s1,
     c = Iterate w /\ ready s = t :: q /\
     Task_run w t (set_ready (fun _ => q) s) = Raise StopIteration s1 /\
     W ∈ ready s' /\ W ∈ taskmap s').
Proof.
  intros Hc Hl Hin.
  destruct c as [w|b k|cs ev k|]; unfold perform in Hc.
  - unfold bind at 1 in Hc.
    destruct (run_iteration w s) as [st s2|] eqn:Hit; [|done]. injection Hc as <-.
    apply run_iteration_cases in Hit.
    destruct Hit as [(_ & _ & ->)|[(_ & _ & _ & ->)|(x & q & _ & Hready & _ & Hcase)]];
      [left; by exists l|left; by exists l|].
    destruct Hcase as [(s1 & Hrun & ->)|[(c & s1 & Hrun & Hh)|(s1 & Hrun & Hn)]].
    + apply Task_run_exit_waiting in Hrun. left. exists l. cbn in *. by rewrite Hrun.
    + apply Task_run_exit_waiting in Hrun. left.
      eapply handle_keeps_waiter; [exact Hh| |exact Hin]. cbn in *. by rewrite Hrun.
    + pose proof (Task_run_StopIteration _ _ _ _ Hrun) as (_ & _ & Hex & _). cbn in Hex.
      apply notify_exit_spec in Hn as (_ & Htm' & Hr' & Hex' & _).
      destruct (decide (x = t)) as [->|Hne].
      * right. exists w, q, s1. rewrite Hr', Htm', Hex, Hl. cbn.
        repeat split; try done; set_solver.
      * left. exists l. rewrite Hex', Hex. by rewrite lookup_delete_ne.
  - unfold new in Hc. run_monad. injection Hc as <-. left. by exists l.
  - unfold joinall, new in Hc. run_monad. injection Hc as <-. left. by exists l.
  - unfold shutdown in Hc. run_monad. injection Hc as <-. left. by exists l.
Qed.

(** A task in a list of [exit_waiting] is in no other place. *)
Lemma exit_member_not_registered s task :
  Inv s -> exit_member s task -> (task ∉ registered s) /\ (task ∉ taskmap s).
Proof.
  intros [Hnd Hreg _] (l & Hl & Hin).
  pose proof (exit_member_placed _ _ _ _ Hl Hin) as Hex.
  cbn in Hnd. unfold placed in Hnd. apply NoDup_app in Hnd as (_ & Hdisj & _).
  assert (task ∉ registered s) as Hnr by (intros Hr; by apply (Hdisj task)).
  split; [done|]. rewrite Hreg. done.
Qed.

Lemma perform_exit_member c s s' task :
  Inv s -> perform c s = Return tt s' -> exit_member s task -> exit_member s' task.
Proof.
  intros HI Hc Hm. pose proof Hm as (l & Hl & Hin).
  destruct (perform_keeps_waiter _ _ _ _ _ _ Hc Hl Hin) as [H|(w & q & s1 & _ & Hready & _)];
    [done|].
  destruct (exit_member_not_registered _ _ HI Hm) as [Hnr _].
  exfalso. apply Hnr. unfold registered. rewrite Hready. set_solver.
Qed.

Lemma leads_exit_member s cs s' task :
  leads s cs s' -> Inv s -> exit_member s task -> Inv s' /\ exit_member s' task.
Proof.
  induction 1 as [s|s c s1 cs s' Hall Hc _ IH]; intros HI Hm; [done|].
  apply IH.
  - by eapply perform_Inv.
  - by eapply perform_exit_member.
Qed.

(** * The methods and the loop *)

(** ** Resumes and frames *)

(** What [__epoll] and the [except] clause leave alone. *)
Lemma epoll_events_objects fdevents s s' :
  epoll_events fdevents s = Return tt s' ->
  objects s' = objects s /\ events s' = events s /\ running s' = running s.
Proof.
  revert s. induction fdevents as [|f rest IH]; intros s; cbn.
  - by intros [= <-].
  - unfold epoll_unregister. run_monad.
    destruct (io_waiting s !! f) as [t|]; cbn; [|done].
    destruct (epoll s !! f); cbn; [|done].
    intros H. by apply IH in H.
Qed.

Lemma restore_events others s s' :
  restore others s = Return tt s' -> events s' = events s.
Proof.
  revert s. induction others as [|o rest IH]; intros s; cbn.
  - by intros [= <-].
  - run_monad. intros H. by apply IH in H.
Qed.

Lemma notify_exit_objects task s s' :
  notify_exit task s = Return tt s' ->
  objects s' = objects s /\ events s' = events s /\ running s' = running s.
Proof.
  unfold notify_exit, taskmap_pop. run_monad.
  destruct (decide (task ∈ taskmap s)); cbn; [|done].
  destruct (exit_waiting s !! task) as [others|]; cbn; [|by intros [= <-]].
  intros H. pose proof (restore_events _ _ _ H) as Hev.
  destruct (restore_spec others
              (set_exit_waiting (delete task) (set_taskmap (fun m => m ∖ {[task]}) s)))
    as (s2 & Heq & _ & _ & _ & _ & _ & _ & Hrun & Hobj).
  rewrite Heq in H. injection H as <-. by rewrite Hobj, Hrun, Hev.
Qed.

Lemma run_iteration_Plain w s task q s1 :
  running s = true -> ready s = task :: q ->
  Task_run w task (set_ready (fun _ => q) s) = Return Plain s1 ->
  run_iteration w s = Return (Dispatched task) (set_ready (fun r => r ++ [task]) s1).
Proof.
  intros Hrun Hready Hyield.
  cbv beta iota delta [run_iteration try_except_StopIteration bind get modify ret].
  rewrite Hrun, Hready. cbv beta iota. by rewrite Hyield.
Qed.

(** The resume of each kind of generator. *)
Lemma Task_run_io_epoll_task w task s :
  target (objects s task) = io_epoll_task ->
  Task_run w task s =
    match closing task (io_epoll_turn (poll w)) s with
    | Return _ s' => Return Plain s'
    | Raise e s' => Raise e s'
    end.
Proof.
  intros Htarget. unfold Task_run. cbv beta iota delta [bind get ret]. by rewrite Htarget.
Qed.

Lemma Task_run_wait_for_tasks w task s cs ev :
  target (objects s task) = wait_for_tasks cs ev ->
  Task_run w task s =
    match wait_for_tasks_next (taskmap s) cs with
    | Some (t, rest) =>
        Return (Sys (WaitForTask t)) (set_target task (wait_for_tasks rest ev) s)
    | None =>
        Raise StopIteration
          (set_target task closed (set_events (fun e => {[ev]} ∪ e) s))
    end.
Proof.
  intros Htarget. unfold Task_run. cbv beta iota delta [bind get ret modify raise].
  rewrite Htarget. by destruct (wait_for_tasks_next (taskmap s) cs) as [[t rest]|].
Qed.

Lemma Task_run_Gen w task s k :
  target (objects s task) = Gen k ->
  Task_run w task s =
    match k (sendval (objects s task)) with
    | Finish => Raise StopIteration (set_target task closed s)
    | Fail e => Raise e (set_target task closed s)
    | Yield y k' => Return y (set_target task (Gen k') s)
    end.
Proof.
  intros Htarget. unfold Task_run. cbv beta iota delta [bind get ret modify raise].
  rewrite Htarget. by destruct (k (sendval (objects s task))).
Qed.

Lemma Task_run_closed w task s :
  target (objects s task) = closed -> Task_run w task s = Raise StopIteration s.
Proof.
  intros Htarget. unfold Task_run. cbv beta iota delta [bind get ret modify raise].
  by rewrite Htarget.
Qed.

Lemma Task_run_time_poll_task w task s :
  target (objects s task) = time_poll_task ->
  Task_run w task s =
    match time_poll_turn (time_time w) s with
    | Return _ s' => Return Plain s'
    | Raise e s' => Raise e s'
    end.
Proof.
  intros Htarget. unfold Task_run. cbv beta iota delta [bind get ret]. by rewrite Htarget.
Qed.

Lemma wait_for_tasks_next_None registry cs :
  wait_for_tasks_next registry cs = None <-> Forall (fun t => t ∉ registry) cs.
Proof.
  induction cs as [|c cs IH]; cbn; [by split|].
  destruct (decide (c ∈ registry)).
  - split; [done|]. intros H. by apply Forall_cons in H as [? _].
  - rewrite IH. split; [by constructor|]. intros H. by apply Forall_cons in H as [_ ?].
Qed.

Lemma wait_for_tasks_next_first registry skipped t rest :
  Forall (fun x => x ∉ registry) skipped -> t ∈ registry ->
  wait_for_tasks_next registry (skipped ++ t :: rest) = Some (t, rest).
Proof.
  intros Hsk Ht. induction Hsk as [|c cs Hc _ IH]; cbn.
  - by rewrite decide_True.
  - by rewrite decide_False.
Qed.

(** ** Sample runs *)

Lemma join_running_reachable : reachable (final (perform_all join_running started)).
Proof.
  apply (leads_reachable started join_running); [|exact started_reachable].
  unfold join_running. leads_by_computation.
Qed.

Lemma same_descriptor_reachable :
  reachable (final (perform_all (take 5 same_descriptor) started)).
Proof.
  apply (leads_reachable started (take 5 same_descriptor)); [|exact started_reachable].
  unfold same_descriptor. cbn [take]. leads_by_computation.
Qed.

Lemma reading_reachable : reachable (final (perform_all reading started)).
Proof.
  apply (leads_reachable started reading); [|exact started_reachable].
  unfold reading. leads_by_computation.
Qed.

Lemma join_nobody_reachable : reachable (final (perform_all join_nobody started)).
Proof.
  apply (leads_reachable started join_nobody); [|exact started_reachable].
  unfold join_nobody. leads_by_computation.
Qed.

Lemma join_second_reachable : reachable (final (perform_all join_second started)).
Proof.
  apply (leads_reachable started join_second); [|exact started_reachable].
  unfold join_second. leads_by_computation.
Qed.

(** ** Placement *)

Lemma reachable_one_placement_witness :
  placements (final (perform_all join_running started)) 3 = 1%nat.
Proof.
  apply (reachable_one_placement (final (perform_all join_running started)) 3).
  - exact join_running_reachable.
  - right. decide_by_computation.
Defined.

Lemma wait_for_read_drops_waiter_witness :
  exists s',
    wait_for_read 4 7
      (set_ready (fun _ => [1; 2]) (final (perform_all (take 5 same_descriptor) started)))
    = Raise IOError s' /\
    3 ∈ taskmap s' /\ (3 ∉ placed s') /\ io_waiting s' !! 7 = Some 4.
Proof.
  apply (wait_for_read_drops_waiter
           (set_ready (fun _ => [1; 2]) (final (perform_all (take 5 same_descriptor) started)))
           3 4 7).
  - apply Inv_dequeue.
    + apply reachable_Inv. exact same_descriptor_reachable.
    + vm_compute; reflexivity.
  - vm_compute; reflexivity.
Defined.

(** X3. The descriptors registered with [epoll] are those that have a waiter.
    The waiter of a descriptor is in the registry, is not on the ready
    queue, and waits for no other descriptor. *)
Theorem reachable_descriptors (s : Scheduler) (f : fd) :
  reachable s ->
  (is_Some (epoll s !! f) <-> is_Some (io_waiting s !! f)) /\
  (forall t, io_waiting s !! f = Some t ->
     t ∈ taskmap s /\ (t ∉ ready s) /\
     (forall f', io_waiting s !! f' = Some t -> f' = f)).
Proof.
  intros Hreach. destruct (reachable_Inv s Hreach) as [Hnd Hreg Hdom].
  split.
  { rewrite <- !elem_of_dom. by rewrite Hdom. }
  intros t Ht. cbn in Hnd. unfold placed, registered, io_tasks in *.
  rewrite (values_delete (io_waiting s) f t Ht) in Hnd.
  split; [|split].
  - apply Hreg. cbn. rewrite (values_delete (io_waiting s) f t Ht). set_solver.
  - intros Hr. apply NoDup_app in Hnd as (Hnd & _).
    apply NoDup_app in Hnd as (_ & Hdisj & _). apply (Hdisj t Hr). set_solver.
  - intros f' Ht'. destruct (decide (f' = f)) as [|Hne]; [done|]. exfalso.
    assert (delete f (io_waiting s) !! f' = Some t) as Hd by by rewrite lookup_delete_ne.
    rewrite (values_delete (delete f (io_waiting s)) f' t Hd) in Hnd.
    apply NoDup_app in Hnd as (Hnd & _). apply NoDup_app in Hnd as (_ & _ & Hnd).
    apply NoDup_app in Hnd as (Hnd & _). apply NoDup_cons in Hnd as [Hnd _].
    set_solver.
Qed.

Lemma reachable_descriptors_witness :
  (is_Some (epoll (final (perform_all reading started)) !! 7) <->
   is_Some (io_waiting (final (perform_all reading started)) !! 7)) /\
  (forall t, io_waiting (final (perform_all reading started)) !! 7 = Some t ->
     t ∈ taskmap (final (perform_all reading started)) /\
     (t ∉ ready (final (perform_all reading started))) /\
     (forall f', io_waiting (final (perform_all reading started)) !! f' = Some t -> f' = 7)).
Proof.
  apply (reachable_descriptors (final (perform_all reading started)) 7).
  exact reading_reachable.
Defined.

(** ** Tasks that wait for an exit *)

Lemma Task_run_sendval w task s y s1 t :
  Task_run w task s = Return y s1 -> sendval (objects s1 t) = sendval (objects s t).
Proof.
  unfold Task_run. run_monad.
  destruct (target (objects s task)) as [k| | |cs ev|]; cbn.
  - destruct (k _); cbn; try done. intros [= _ <-]. cbn. by destruct (decide (t = task)).
  - unfold closing, io_epoll_turn, __epoll. run_monad.
    destruct (decide _); cbn; [by intros [= _ <-]|].
    destruct (epoll_events _ _) as [[] s2|e s2] eqn:E; cbn; [|done].
    intros [= _ <-]. apply epoll_events_objects in E as (E & _). by rewrite E.
  - unfold time_poll_turn. run_monad. by intros [= _ <-].
  - destruct (wait_for_tasks_next _ _) as [[t' rest]|]; cbn; [|done].
    intros [= _ <-]. cbn. by destruct (decide (t = task)).
  - done.
Qed.

Lemma Task_run_StopIteration_sendval w task s s1 t :
  Task_run w task s = Raise StopIteration s1 ->
  sendval (objects s1 t) = sendval (objects s t).
Proof.
  unfold Task_run. run_monad.
  destruct (target (objects s task)) as [k| | |cs ev|]; cbn.
  - destruct (k _) as [|e|]; cbn; try done.
    + intros [= <-]. cbn. by destruct (decide (t = task)).
    + intros [= -> <-]. cbn. by destruct (decide (t = task)).
  - unfold closing, io_epoll_turn, __epoll. run_monad.
    destruct (decide _); cbn; [done|].
    destruct (epoll_events _ _) as [|e s2] eqn:E; cbn; [done|].
    intros [= -> _]. apply epoll_events_raises in E. naive_solver.
  - unfold time_poll_turn. run_monad. done.
  - destruct (wait_for_tasks_next _ _) as [[t' rest]|]; cbn; [done|].
    intros [= <-]. cbn. by destruct (decide (t = task)).
  - by intros [= <-].
Qed.

Lemma handle_exit_results c w task s s' :
  handle c w task s = Return tt s' -> Inv_at [task] s ->
  exit_results s -> exit_results s'.
Proof.
  intros H HI Hres.
  assert (forall k l t, exit_waiting s !! k = Some l -> t ∈ l -> t <> task) as Hne.
  { intros k l t Hk Ht ->. apply (Inv_at_not_registered _ _ HI).
    unfold placed. apply elem_of_app. right. by eapply exit_member_placed. }
  destruct c as [t|t|sec|f|f]; unfold handle in H.
  - rewrite KillTask_handle_state in H. injection H as <-.
    intros k l x Hk Hx. cbn in Hk.
    assert (exit_waiting s !! k = Some l) as Hk' by (by destruct (decide (t ∈ taskmap s))).
    pose proof (Hne _ _ _ Hk' Hx) as Hxt. pose proof (Hres _ _ _ Hk' Hx) as Hv.
    destruct (decide (t ∈ taskmap s)); cbn; rewrite decide_False by done; [|done].
    by destruct (decide (x = t)).
  - destruct (decide (t ∈ taskmap s)) as [Hin|Hout].
    + destruct (decide (task ∈ taskmap s)) as [Htask|Htask].
      * rewrite (WaitForTask_handle_parks s t task Hin Htask) in H. injection H as <-.
        intros k l x Hk Hx. cbn in Hk. cbn.
        destruct (decide (x = task)) as [->|Hxt]; [done|].
        destruct (decide (k = t)) as [->|Hkt].
        -- rewrite lookup_insert_eq in Hk. injection Hk as <-.
           apply elem_of_app in Hx as [Hx|Hx]; [|set_solver].
           destruct (exit_waiting s !! t) as [l|] eqn:El; cbn in Hx; [|set_solver].
           by apply (Hres t l).
        -- rewrite lookup_insert_ne in Hk by done. by apply (Hres k l).
      * unfold WaitForTask_handle, wait_for_exit, taskmap_pop in H. run_monad.
        rewrite decide_True in H by done. cbn in H. by rewrite decide_False in H.
    + rewrite (WaitForTask_handle_absent s t task Hout) in H. injection H as <-.
      intros k l x Hk Hx. cbn in *. rewrite decide_False by by eapply Hne.
      by apply (Hres k l).
  - unfold WaitForTime_handle, wait_for_time in H.
    destruct (Qeq_bool sec 0); run_monad; [done|]. by injection H as <-.
  - unfold wait_for_read, epoll_register in H. run_monad.
    destruct (epoll s !! f); cbn in H; [done|]. by injection H as <-.
  - unfold wait_for_write, epoll_register in H. run_monad.
    destruct (epoll s !! f); cbn in H; [done|]. by injection H as <-.
Qed.

Lemma perform_exit_results c s s' :
  perform c s = Return tt s' -> allowed s c -> Inv s ->
  exit_results s -> exit_results s'.
Proof.
  intros Hc Hall HI Hres.
  destruct c as [w|b t|cs ev t|]; unfold perform in Hc.
  - unfold bind at 1 in Hc.
    destruct (run_iteration w s) as [st s2|] eqn:Hit; [|done]. injection Hc as <-.
    apply run_iteration_cases in Hit.
    destruct Hit as [(_ & _ & ->)|[(_ & _ & _ & ->)|(x & q & _ & Hready & _ & Hcase)]];
      [done|done|].
    pose proof (Inv_dequeue _ _ _ HI Hready) as HI0.
    destruct Hcase as [(s1 & Hrun & ->)|[(c & s1 & Hrun & Hh)|(s1 & Hrun & Hn)]].
    + intros k l y Hk Hy. cbn in *.
      rewrite (Task_run_sendval _ _ _ _ _ y Hrun). cbn.
      rewrite (Task_run_exit_waiting _ _ _ _ _ Hrun) in Hk. by apply (Hres k l).
    + eapply handle_exit_results; [exact Hh|by eapply Task_run_Inv|].
      intros k l y Hk Hy.
      rewrite (Task_run_sendval _ _ _ _ _ y Hrun). cbn.
      rewrite (Task_run_exit_waiting _ _ _ _ _ Hrun) in Hk. by apply (Hres k l).
    + intros k l y Hk Hy.
      rewrite (proj1 (notify_exit_objects _ _ _ Hn)).
      rewrite (Task_run_StopIteration_sendval _ _ _ _ y Hrun). cbn.
      apply notify_exit_spec in Hn as (_ & _ & _ & Hex' & _).
      pose proof (Task_run_StopIteration _ _ _ _ Hrun) as (_ & _ & Hex & _). cbn in Hex.
      rewrite Hex', Hex in Hk. apply lookup_delete_Some in Hk as [_ Hk].
      by apply (Hres k l).
  - unfold new in Hc. run_monad. injection Hc as <-.
    intros k l y Hk Hy. cbn in *. destruct Hall as [_ Hfresh].
    rewrite decide_False; [by apply (Hres k l)|]. intros ->. apply Hfresh.
    unfold placed. apply elem_of_app. right. by eapply exit_member_placed.
  - unfold joinall, new in Hc. run_monad. injection Hc as <-.
    intros k l y Hk Hy. cbn in *. destruct Hall as [_ Hfresh].
    rewrite decide_False; [by apply (Hres k l)|]. intros ->. apply Hfresh.
    unfold placed. apply elem_of_app. right. by eapply exit_member_placed.
  - unfold shutdown in Hc. run_monad. by injection Hc as <-.
Qed.

Lemma reachable_exit_results s : reachable s -> exit_results s.
Proof.
  induction 1 as [io_tid time_tid s Hne Hstart|s c s' Hreach IH Hall Hstep].
  - unfold run_start, new in Hstart. run_monad. injection Hstart as <-.
    intros k l t Hk. cbn in Hk. by rewrite lookup_empty in Hk.
  - eapply perform_exit_results; [exact Hstep|exact Hall|by apply reachable_Inv|exact IH].
Qed.

(** X4. A task in a list of [exit_waiting] is out of the registry and off the
    ready queue, and its pending result is [True]; a [KillTask] on it
    answers [False] and leaves its generator as it is. *)
Theorem exit_waiter_hidden (s : Scheduler) (k W caller : tid) (l : list tid) :
  reachable s -> exit_waiting s !! k = Some l -> W ∈ l ->
  (W ∉ taskmap s) /\
  (W ∉ ready s) /\
  sendval (objects s W) = VTrue /\
  exists s',
    KillTask_handle W caller s = Return tt s' /\
    sendval (objects s' caller) = VFalse /\
    target (objects s' W) = target (objects s W).
Proof.
  intros Hreach Hk HW.
  destruct (reachable_Inv s Hreach) as [Hnd Hreg _].
  pose proof (exit_member_placed _ _ _ _ Hk HW) as Hex.
  cbn in Hnd. unfold placed in Hnd. apply NoDup_app in Hnd as (_ & Hdisj & _).
  assert (W ∉ registered s) as Hnr by (intros Hr; by apply (Hdisj W)).
  assert (W ∉ taskmap s) as Hnt by (by rewrite Hreg).
  split; [done|]. split; [unfold registered in Hnr; set_solver|].
  split; [by apply (reachable_exit_results s Hreach k l)|].
  eexists. split; [apply KillTask_handle_state|].
  rewrite decide_False by done. cbn. split; [by rewrite decide_True|].
  by destruct (decide (W = caller)).
Qed.

Lemma exit_waiter_hidden_witness :
  (3 ∉ taskmap (final (perform_all join_running started))) /\
  (3 ∉ ready (final (perform_all join_running started))) /\
  sendval (objects (final (perform_all join_running started)) 3) = VTrue /\
  exists s',
    KillTask_handle 3 1 (final (perform_all join_running started)) = Return tt s' /\
    sendval (objects s' 1) = VFalse /\
    target (objects s' 3) = target (objects (final (perform_all join_running started)) 3).
Proof.
  apply (exit_waiter_hidden (final (perform_all join_running started)) 4 3 1 [3]).
  - exact join_running_reachable.
  - vm_compute; reflexivity.
  - by apply list_elem_of_singleton.
Defined.

(** ** Tasks that wait for a time *)

Lemma Qeq_bool_trans_false (k e e' : Q) :
  Qeq_bool k e = true -> ~ (e' == e)%Q -> Qeq_bool k e' = false.
Proof.
  intros Hk Hne. destruct (Qeq_bool k e') eqn:E; [|done].
  apply Qeq_bool_iff in Hk, E. exfalso. apply Hne. by rewrite <- E, Hk.
Qed.

Lemma time_waiting_get_append tw exptime task :
  time_waiting_get (time_waiting_append tw exptime task) exptime =
    Some (default [] (time_waiting_get tw exptime) ++ [task]).
Proof.
  induction tw as [|[k l] tw IH]; cbn.
  - by rewrite Qeq_bool_refl.
  - destruct (Qeq_bool k exptime) eqn:E; cbn; by rewrite E.
Qed.

Lemma time_waiting_get_append_ne tw exptime task e' :
  ~ (e' == exptime)%Q ->
  time_waiting_get (time_waiting_append tw exptime task) e' = time_waiting_get tw e'.
Proof.
  intros Hne. induction tw as [|[k l] tw IH]; cbn.
  - rewrite (Qeq_bool_trans_false exptime exptime e'); [done|apply Qeq_bool_refl|done].
  - destruct (Qeq_bool k exptime) eqn:E; cbn.
    + by rewrite (Qeq_bool_trans_false k exptime e').
    + by rewrite IH.
Qed.

(** X5. [wait_for_time] as a dict update: the bucket of [exptime] gets the task
    at its end, after the tasks already filed under that time, and the
    buckets of the other times are as they were. *)
Theorem wait_for_time_bucket (task : tid) (exptime : Q) (s : Scheduler) :
  exists s',
    wait_for_time task exptime s = Return tt s' /\
    time_waiting_get (time_waiting s') exptime =
      Some (default [] (time_waiting_get (time_waiting s) exptime) ++ [task]) /\
    (forall e', ~ (e' == exptime)%Q ->
       time_waiting_get (time_waiting s') e' = time_waiting_get (time_waiting s) e') /\
    time_tasks s' ≡ₚ task :: time_tasks s /\
    ready s' = ready s /\ taskmap s' = taskmap s /\
    io_waiting s' = io_waiting s /\ exit_waiting s' = exit_waiting s.
Proof.
  eexists. split; [reflexivity|]. cbn.
  split; [apply time_waiting_get_append|].
  split; [intros e' He'; by apply time_waiting_get_append_ne|].
  split; [apply time_tasks_append|done].
Qed.

Lemma time_waiting_get_not_due (tw : list (Q * list tid)) (clock e : Q) :
  (e <= clock)%Q ->
  time_waiting_get (filter (fun b => due clock b = false) tw) e = None.
Proof.
  intros He. induction tw as [|[k l] tw IH]; [done|].
  rewrite filter_cons. destruct (due clock (k, l)) eqn:Hd.
  - by rewrite decide_False.
  - rewrite decide_True by done. cbn. destruct (Qeq_bool k e) eqn:E; [|done].
    apply Qeq_bool_iff in E. unfold due in Hd. cbn in Hd.
    assert (Qle_bool k clock = true) as Hle by (apply Qle_bool_iff; by rewrite E).
    congruence.
Qed.

Lemma filter_not_due_later (tw : list (Q * list tid)) (clock : Q) :
  Forall (fun b => (clock < b.1)%Q) (filter (fun b => due clock b = false) tw).
Proof.
  apply Forall_forall. intros b Hb. apply list_elem_of_filter in Hb as [Hd _].
  unfold due in Hd. apply Qnot_le_lt. intros Hle. apply Qle_bool_iff in Hle. congruence.
Qed.

Lemma time_waiting_get_later (tw : list (Q * list tid)) (clock e : Q) :
  (clock < e)%Q ->
  time_waiting_get (filter (fun b => due clock b = false) tw) e = time_waiting_get tw e.
Proof.
  intros He. induction tw as [|[k l] tw IH]; [done|].
  rewrite filter_cons. destruct (decide (due clock (k, l) = false)) as [Hd|Hd]; cbn.
  - by rewrite IH.
  - rewrite IH. destruct (Qeq_bool k e) eqn:E; [|done].
    apply Qeq_bool_iff in E. apply not_false_is_true in Hd.
    unfold due in Hd. cbn in Hd. apply Qle_bool_iff in Hd. rewrite E in Hd. lra.
Qed.

(** X6. One turn of the time-poll task: it never raises and goes back on the
    ready queue behind the tasks it wakes.  These are the tasks of the
    buckets whose time is not after the clock, bucket after bucket in
    some order of the buckets, the tasks of a bucket in the order they were
    filed.  The buckets for later times are as they were, no other bucket
    is left, and no task is lost. *)
Theorem time_poll_iteration (w : World) (s : Scheduler) (task : tid) (q : list tid) :
  running s = true -> ready s = task :: q ->
  target (objects s task) = time_poll_task ->
  exists s' buckets,
    run_iteration w s = Return (Dispatched task) s' /\
    buckets ≡ₚ filter (fun b => due (time_time w) b = true) (time_waiting s) /\
    ready s' = q ++ concat buckets.*2 ++ [task] /\
    (forall e, (e <= time_time w)%Q -> time_waiting_get (time_waiting s') e = None) /\
    (forall e, (time_time w < e)%Q ->
       time_waiting_get (time_waiting s') e = time_waiting_get (time_waiting s) e) /\
    Forall (fun b => (time_time w < b.1)%Q) (time_waiting s') /\
    concat buckets.*2 ++ time_tasks s' ≡ₚ time_tasks s /\
    taskmap s' = taskmap s /\ io_waiting s' = io_waiting s /\
    exit_waiting s' = exit_waiting s /\
    target (objects s' task) = time_poll_task.
Proof.
  intros Hrun Hready Htarget.
  eexists. exists (filter (fun b => due (time_time w) b = true) (time_waiting s)). split.
  { cbv beta iota delta [run_iteration try_except_StopIteration bind get modify ret].
    rewrite Hrun, Hready. cbv beta iota.
    unfold Task_run, time_poll_turn. run_monad. rewrite Htarget. cbn. reflexivity. }
  cbn. split; [done|]. split; [by rewrite <- app_assoc|].
  split; [intros e He; by apply time_waiting_get_not_due|].
  split; [intros e He; by apply time_waiting_get_later|].
  split; [apply filter_not_due_later|].
  split; [apply (time_tasks_filter (time_waiting s) (due (time_time w)))|done].
Qed.

Lemma time_poll_iteration_witness :
  exists s' buckets,
    run_iteration (at_time 11) (final (perform_all (take 5 sleep_one) started)) =
      Return (Dispatched 2) s' /\
    buckets ≡ₚ filter (fun b => due (time_time (at_time 11)) b = true)
                 (time_waiting (final (perform_all (take 5 sleep_one) started))) /\
    ready s' = [1] ++ concat buckets.*2 ++ [2] /\
    (forall e, (e <= time_time (at_time 11))%Q ->
       time_waiting_get (time_waiting s') e = None) /\
    (forall e, (time_time (at_time 11) < e)%Q ->
       time_waiting_get (time_waiting s') e =
       time_waiting_get (time_waiting (final (perform_all (take 5 sleep_one) started))) e) /\
    Forall (fun b => (time_time (at_time 11) < b.1)%Q) (time_waiting s') /\
    concat buckets.*2 ++ time_tasks s' ≡ₚ
      time_tasks (final (perform_all (take 5 sleep_one) started)) /\
    taskmap s' = taskmap (final (perform_all (take 5 sleep_one) started)) /\
    io_waiting s' = io_waiting (final (perform_all (take 5 sleep_one) started)) /\
    exit_waiting s' = exit_waiting (final (perform_all (take 5 sleep_one) started)) /\
    target (objects s' 2) = time_poll_task.
Proof.
  apply (time_poll_iteration (at_time 11) (final (perform_all (take 5 sleep_one) started))
           2 [1]).
  - vm_compute; reflexivity.
  - vm_compute; reflexivity.
  - vm_compute; reflexivity.
Defined.

Lemma time_waiting_append_bucket tw exptime task :
  exists k l, (k, l) ∈ time_waiting_append tw exptime task /\ (k == exptime)%Q /\ task ∈ l.
Proof.
  induction tw as [|[k l] tw IH]; cbn.
  - exists exptime, [task]. split; [set_solver|]. split; [reflexivity|set_solver].
  - destruct (Qeq_bool k exptime) eqn:E.
    + exists k, (l ++ [task]). split; [set_solver|].
      split; [by apply Qeq_bool_iff|set_solver].
    + destruct IH as (k' & l' & Hin & Hk & Ht). exists k', l'. set_solver.
Qed.

Lemma time_waiting_append_elem tw exptime task k l x :
  (k, l) ∈ time_waiting_append tw exptime task -> x ∈ l ->
  x ∈ concat tw.*2 \/ (x = task /\ (k == exptime)%Q).
Proof.
  induction tw as [|[k0 l0] tw IH]; cbn.
  - intros Hin Hx. apply list_elem_of_singleton in Hin. injection Hin as -> ->.
    right. split; [set_solver|reflexivity].
  - destruct (Qeq_bool k0 exptime) eqn:E; intros Hin Hx.
    + apply elem_of_cons in Hin as [Hin|Hin].
      * injection Hin as -> ->. apply elem_of_app in Hx as [Hx|Hx].
        -- left. set_solver.
        -- right. split; [set_solver|by apply Qeq_bool_iff].
      * left. apply elem_of_app. right.
        apply list_elem_of_In, in_concat. exists l.
        split; apply list_elem_of_In; [|done].
        apply list_elem_of_fmap. by exists (k, l).
    + apply elem_of_cons in Hin as [Hin|Hin].
      * injection Hin as -> ->. left. set_solver.
      * destruct (IH Hin Hx) as [H|H]; [left; set_solver|by right].
Qed.

Lemma bucket_member (tw : list (Q * list tid)) k l x :
  (k, l) ∈ tw -> x ∈ l -> x ∈ concat tw.*2.
Proof.
  intros Hin Hx. apply list_elem_of_In, in_concat. exists l.
  split; apply list_elem_of_In; [|done]. apply list_elem_of_fmap. by exists (k, l).
Qed.

Lemma member_bucket (tw : list (Q * list tid)) x :
  x ∈ concat tw.*2 -> exists k l, (k, l) ∈ tw /\ x ∈ l.
Proof.
  intros Hx. apply list_elem_of_In, in_concat in Hx as (l & Hl & Hx).
  apply list_elem_of_In, list_elem_of_fmap in Hl as ([k l'] & -> & Hin).
  exists k, l'. split; [done|by apply list_elem_of_In].
Qed.

(** X7. A task filed under a time by [wait_for_time] and the next turn of the
    time-poll task: when the time is not after the clock the task goes on
    the ready queue and is filed no more; when the time is after the clock
    the task stays filed and is not put on the ready queue. *)
Theorem wait_for_time_wakes (exptime clock : Q) (task : tid) (s : Scheduler) :
  exists s1 s2,
    wait_for_time task exptime s = Return tt s1 /\
    time_poll_turn clock s1 = Return tt s2 /\
    ((exptime <= clock)%Q ->
       task ∈ ready s2 /\ (task ∉ time_tasks s -> task ∉ time_tasks s2)) /\
    ((clock < exptime)%Q ->
       task ∈ time_tasks s2 /\
       (task ∉ ready s -> task ∉ time_tasks s -> task ∉ ready s2)).
Proof.
  eexists. eexists. split; [reflexivity|]. split; [reflexivity|]. cbn.
  destruct (time_waiting_append_bucket (time_waiting s) exptime task) as (k & l & Hin & Hk & Ht).
  split.
  - intros Hclock. split.
    + apply elem_of_app. right.
      apply (bucket_member _ k l); [|done]. apply list_elem_of_filter. split; [|done].
      unfold due. cbn. apply Qle_bool_iff. by rewrite Hk.
    + intros Hnt Hr. unfold time_tasks in Hr. cbn in Hr.
      apply member_bucket in Hr as (k' & l' & Hin' & Hx).
      apply list_elem_of_filter in Hin' as [Hd Hin'].
      destruct (time_waiting_append_elem _ _ _ _ _ _ Hin' Hx) as [Hold|[_ Hk']]; [done|].
      unfold due in Hd. cbn in Hd.
      assert (Qle_bool k' clock = true) as Hd'; [|congruence].
      apply Qle_bool_iff. by rewrite Hk'.
  - intros Hclock. split.
    + unfold time_tasks. cbn.
      apply (bucket_member _ k l); [|done]. apply list_elem_of_filter. split; [|done].
      unfold due. cbn. destruct (Qle_bool k clock) eqn:E; [|done].
      apply Qle_bool_iff in E. rewrite Hk in E. lra.
    + intros Hnr Hnt Hr. apply elem_of_app in Hr as [Hr|Hr]; [done|].
      apply member_bucket in Hr as (k' & l' & Hin' & Hx).
      apply list_elem_of_filter in Hin' as [Hd Hin'].
      destruct (time_waiting_append_elem _ _ _ _ _ _ Hin' Hx) as [Hold|[_ Hk']]; [done|].
      unfold due in Hd. cbn in Hd. apply Qle_bool_iff in Hd. rewrite Hk' in Hd. lra.
Qed.

Lemma wait_for_time_wakes_witness :
  exists s1 s2,
    wait_for_time 3 11 started = Return tt s1 /\
    time_poll_turn 12 s1 = Return tt s2 /\
    3 ∈ ready s2 /\ (3 ∉ time_tasks s2).
Proof.
  destruct (wait_for_time_wakes 11 12 3 started) as (s1 & s2 & H1 & H2 & Hdue & _).
  exists s1, s2. split; [exact H1|]. split; [exact H2|].
  destruct Hdue as [Hin Hout]; [discriminate|]. split; [exact Hin|].
  apply Hout. decide_by_computation.
Defined.

(** X8. A task made from [sleep(seconds)], whatever [seconds] is: when the
    iteration that first resumes it returns, the task has been filed in
    [time_waiting], once, and nowhere else; it is still in the registry
    and is not put back on the ready queue; and its next resume ends the
    coroutine. *)
Theorem sleep_coroutine (w w' : World) (s s' : Scheduler) (st : status) (task : tid)
    (q : list tid) (seconds : Q) :
  running s = true -> ready s = task :: q ->
  target (objects s task) = Gen (fun _ => sleep seconds) ->
  run_iteration w s = Return st s' ->
  st = Dispatched task /\
  ready s' = q /\
  time_tasks s' ≡ₚ task :: time_tasks s /\
  taskmap s' = taskmap s /\
  io_waiting s' = io_waiting s /\ exit_waiting s' = exit_waiting s /\
  Task_run w' task s' = Raise StopIteration (set_target task closed s').
Proof.
  intros Hrun Hready Htarget Hit.
  pose (s1 := set_target task (Gen (fun _ => Finish)) (set_ready (fun _ => q) s)).
  assert (Task_run w task (set_ready (fun _ => q) s) = Return (Sys (WaitForTime seconds)) s1)
    as Hyield.
  { rewrite (Task_run_Gen w task _ (fun _ => sleep seconds)) by done. reflexivity. }
  apply run_iteration_cases in Hit.
  destruct Hit as [(Hr & _)|[(_ & Hr & _)|(x & q' & _ & Hready' & -> & Hcase)]];
    [congruence|congruence|].
  rewrite Hready in Hready'. injection Hready' as <- <-.
  rewrite Hyield in Hcase.
  destruct Hcase as [(s2 & [=] & _)|[(c & s2 & [= <- <-] & Hh)|(s2 & [=] & _)]].
  unfold handle, WaitForTime_handle, wait_for_time in Hh.
  destruct (Qeq_bool seconds 0); [done|].
  unfold modify in Hh. injection Hh as <-.
  split; [done|]. split; [done|].
  split; [apply time_tasks_append|].
  do 3 (split; [done|]).
  rewrite (Task_run_Gen w' task _ (fun _ => Finish)).
  - reflexivity.
  - cbn. by rewrite decide_True.
Qed.

Lemma sleep_coroutine_witness :
  Dispatched 3 = Dispatched 3 /\
  ready (final (perform_all (take 4 sleep_one) started)) = [1; 2] /\
  time_tasks (final (perform_all (take 4 sleep_one) started)) ≡ₚ
    3 :: time_tasks (final (perform_all (take 3 sleep_one) started)) /\
  taskmap (final (perform_all (take 4 sleep_one) started)) =
    taskmap (final (perform_all (take 3 sleep_one) started)) /\
  io_waiting (final (perform_all (take 4 sleep_one) started)) =
    io_waiting (final (perform_all (take 3 sleep_one) started)) /\
  exit_waiting (final (perform_all (take 4 sleep_one) started)) =
    exit_waiting (final (perform_all (take 3 sleep_one) started)) /\
  Task_run quiet 3 (final (perform_all (take 4 sleep_one) started)) =
    Raise StopIteration
      (set_target 3 closed (final (perform_all (take 4 sleep_one) started))).
Proof.
  apply (sleep_coroutine (at_time (21 # 2)) quiet
           (final (perform_all (take 3 sleep_one) started))
           (final (perform_all (take 4 sleep_one) started)) (Dispatched 3) 3 [1; 2] 1).
  - vm_compute; reflexivity.
  - vm_compute; reflexivity.
  - vm_compute; reflexivity.
  - vm_compute; reflexivity.
Defined.

(** ** Tasks that wait for a descriptor *)

Lemma waiters_ext s s' fdevents :
  (forall f, f ∈ fdevents -> io_waiting s' !! f = io_waiting s !! f) ->
  waiters s' fdevents = waiters s fdevents.
Proof.
  unfold waiters. induction fdevents as [|f rest IH]; intros H; [done|]. cbn.
  rewrite (H f) by set_solver. rewrite IH; [done|]. intros g Hg. apply H. set_solver.
Qed.

(** [__epoll] on descriptors that are reported once each, have a waiter and
    are registered. *)
Lemma epoll_events_wakes fdevents s :
  NoDup fdevents ->
  (forall f, f ∈ fdevents -> is_Some (io_waiting s !! f) /\ is_Some (epoll s !! f)) ->
  exists s',
    epoll_events fdevents s = Return tt s' /\
    ready s' = ready s ++ waiters s fdevents /\
    (forall f, io_waiting s' !! f = if decide (f ∈ fdevents) then None else io_waiting s !! f) /\
    (forall f, epoll s' !! f = if decide (f ∈ fdevents) then None else epoll s !! f) /\
    taskmap s' = taskmap s /\ exit_waiting s' = exit_waiting s /\
    time_waiting s' = time_waiting s /\ objects s' = objects s /\
    polled s' = polled s /\ events s' = events s /\ running s' = running s.
Proof.
  intros Hnd. revert s. induction Hnd as [|f rest Hf Hnd IH]; intros s Hall.
  - exists s. split; [done|]. cbn. rewrite app_nil_r. repeat split; try done.
  - destruct (Hall f) as [[t Hio] [m Hep]]; [set_solver|].
    cbn [epoll_events]. unfold epoll_unregister. run_monad. rewrite Hio. cbn. rewrite Hep.
    set (s1 := set_epoll (delete f) _).
    destruct (IH s1) as (s' & -> & Hr & Hio' & Hep' & Htm & Hex & Htw & Hobj & Hpo & Hev & Hru).
    { intros g Hg. assert (g <> f) by (intros ->; done). cbn.
      rewrite !lookup_delete_ne by done. apply Hall. set_solver. }
    exists s'. split; [done|].
    rewrite Hr, Htm, Hex, Htw, Hobj, Hpo, Hev, Hru. cbn.
    split.
    { rewrite (waiters_ext s s1 rest).
      - unfold waiters. cbn. by rewrite <- app_assoc.
      - intros g Hg. cbn. apply lookup_delete_ne. intros <-. done. }
    split.
    { intros g. rewrite Hio'. cbn. destruct (decide (g = f)) as [->|Hne].
      - rewrite (decide_True (P := f ∈ f :: rest)) by set_solver.
        destruct (decide (f ∈ rest)); [done|apply lookup_delete_eq].
      - rewrite lookup_delete_ne by done.
        destruct (decide (g ∈ rest)).
        + by rewrite decide_True by set_solver.
        + by rewrite decide_False by set_solver. }
    split; [|done].
    intros g. rewrite Hep'. cbn. destruct (decide (g = f)) as [->|Hne].
    + rewrite (decide_True (P := f ∈ f :: rest)) by set_solver.
      destruct (decide (f ∈ rest)); [done|apply lookup_delete_eq].
    + rewrite lookup_delete_ne by done.
      destruct (decide (g ∈ rest)).
      * by rewrite decide_True by set_solver.
      * by rewrite decide_False by set_solver.
Qed.

(** X9. One turn of the I/O-poll task, when [epoll.poll] reports registered
    descriptors, each once: the turn does not raise; the waiters of the
    reported descriptors go on the ready queue in the order reported, the
    I/O-poll task behind them; these descriptors have no waiter left and
    are not registered any more, and the others are untouched.  The poll is
    made, with timeout 0, exactly when [io_waiting] is not empty. *)
Theorem io_poll_iteration (w : World) (s : Scheduler) (task : tid) (q : list tid) :
  reachable s -> running s = true -> ready s = task :: q ->
  target (objects s task) = io_epoll_task ->
  NoDup (poll w) -> (forall f, f ∈ poll w -> is_Some (epoll s !! f)) ->
  exists s',
    run_iteration w s = Return (Dispatched task) s' /\
    ready s' = q ++ waiters s (poll w) ++ [task] /\
    length (waiters s (poll w)) = length (poll w) /\
    (forall f, io_waiting s' !! f = if decide (f ∈ poll w) then None else io_waiting s !! f) /\
    (forall f, epoll s' !! f = if decide (f ∈ poll w) then None else epoll s !! f) /\
    polled s' = polled s ++ (if decide (io_waiting s = ∅) then [] else [0]) /\
    taskmap s' = taskmap s /\ exit_waiting s' = exit_waiting s /\
    time_waiting s' = time_waiting s /\
    target (objects s' task) = io_epoll_task.
Proof.
  intros Hreach Hrun Hready Htarget Hnd Hreg.
  pose proof (inv_epoll _ _ (reachable_Inv s Hreach)) as Hdom.
  assert (forall f, f ∈ poll w -> is_Some (io_waiting s !! f) /\ is_Some (epoll s !! f)) as Hall.
  { intros f Hf. split; [|by apply Hreg].
    apply elem_of_dom. rewrite Hdom. apply elem_of_dom. by apply Hreg. }
  assert (length (waiters s (poll w)) = length (poll w)) as Hlen.
  { unfold waiters. clear Hnd Hreg. induction (poll w) as [|f rest IH]; [done|]. cbn.
    destruct (Hall f) as [[t ->] _]; [set_solver|]. cbn. f_equal. apply IH.
    intros g Hg. apply Hall. set_solver. }
  pose (s0 := set_ready (fun _ => q) s).
  destruct (decide (io_waiting s = ∅)) as [Hempty|Hne].
  - assert (poll w = []) as Hnil.
    { destruct (poll w) as [|f rest]; [done|].
      destruct (Hall f) as [[t Ht] _]; [set_solver|]. by rewrite Hempty, lookup_empty in Ht. }
    exists (set_ready (fun r => r ++ [task]) s0). split.
    { apply (run_iteration_Plain w s task q); [done|done|].
      rewrite Task_run_io_epoll_task by done. unfold closing.
      by rewrite (io_epoll_turn_idle (poll w) (set_ready (fun _ => q) s) Hempty). }
    rewrite Hnil. cbn. rewrite app_nil_r. repeat split; try done.
  - destruct (epoll_events_wakes (poll w) (set_polled (fun p => p ++ [0]) s0) Hnd)
      as (s1 & Hev & Hr & Hio & Hep & Htm & Hex & Htw & Hobj & Hpo & _).
    { intros f Hf. cbn. by apply Hall. }
    exists (set_ready (fun r => r ++ [task]) s1). split.
    { apply (run_iteration_Plain w s task q); [done|done|].
      rewrite Task_run_io_epoll_task by done. unfold closing.
      rewrite (io_epoll_turn_timeout (poll w) (set_ready (fun _ => q) s) Hne).
      cbv beta iota delta [__epoll bind modify]. unfold s0 in Hev. by rewrite Hev. }
    cbn. rewrite Hr, Htm, Hex, Htw, Hobj, Hpo. cbn.
    split; [by rewrite <- app_assoc|]. split; [done|].
    split; [intros f; by rewrite Hio|]. split; [intros f; by rewrite Hep|done].
Qed.

Lemma io_poll_iteration_witness :
  exists s',
    run_iteration readable (final (perform_all reading started)) =
      Return (Dispatched 1) s' /\
    ready s' = [2] ++ waiters (final (perform_all reading started)) (poll readable) ++ [1] /\
    length (waiters (final (perform_all reading started)) (poll readable)) =
      length (poll readable) /\
    (forall f, io_waiting s' !! f =
       if decide (f ∈ poll readable) then None
       else io_waiting (final (perform_all reading started)) !! f) /\
    (forall f, epoll s' !! f =
       if decide (f ∈ poll readable) then None
       else epoll (final (perform_all reading started)) !! f) /\
    polled s' =
      polled (final (perform_all reading started)) ++
      (if decide (io_waiting (final (perform_all reading started)) = ∅) then [] else [0]) /\
    taskmap s' = taskmap (final (perform_all reading started)) /\
    exit_waiting s' = exit_waiting (final (perform_all reading started)) /\
    time_waiting s' = time_waiting (final (perform_all reading started)) /\
    target (objects s' 1) = io_epoll_task.
Proof.
  apply (io_poll_iteration readable (final (perform_all reading started)) 1 [2]).
  - exact reading_reachable.
  - vm_compute; reflexivity.
  - vm_compute; reflexivity.
  - vm_compute; reflexivity.
  - cbn. apply NoDup_singleton.
  - intros f Hf. cbn in Hf. apply list_elem_of_singleton in Hf as ->.
    exists EPOLLIN. vm_compute; reflexivity.
Defined.

Lemma wait_for_io_fires (mask : eventmask) (task : tid) (f : fd) (timeout again : Z)
    (s : Scheduler) :
  epoll s !! f = None -> io_waiting s !! f = None ->
  exists s1 s2,
    (modify (set_io_waiting (insert f task)) >> epoll_register f mask) s = Return tt s1 /\
    io_waiting s1 !! f = Some task /\ epoll s1 !! f = Some mask /\
    ready s1 = ready s /\ taskmap s1 = taskmap s /\
    __epoll timeout [f] s1 = Return tt s2 /\
    ready s2 = ready s ++ [task] /\
    io_waiting s2 = io_waiting s /\ epoll s2 = epoll s /\
    __epoll again [f] s2 = Raise KeyError (set_polled (fun p => p ++ [again]) s2).
Proof.
  intros Hep Hio.
  exists (set_epoll (insert f mask) (set_io_waiting (insert f task) s)).
  eexists. split.
  { unfold epoll_register. run_monad. by rewrite Hep. }
  cbn. split; [apply lookup_insert_eq|]. split; [apply lookup_insert_eq|].
  split; [done|]. split; [done|]. split.
  { unfold __epoll, epoll_unregister. run_monad. rewrite lookup_insert_eq. cbn.
    rewrite lookup_insert_eq. reflexivity. }
  cbn. rewrite !delete_insert_eq, !delete_id by done.
  split; [done|]. split; [done|]. split; [done|].
  unfold __epoll. run_monad. by rewrite lookup_delete_eq.
Qed.

(** X10. A wait for a descriptor and the event that ends it.  [ReadTask] and
    [WriteTask] on a descriptor that is not registered file the task under
    the descriptor and register it, for input and for output, without
    putting the task on the ready queue.  When [epoll.poll] reports the
    descriptor the task goes on the ready queue, and [io_waiting] and the
    registrations are as before the wait.  The wait is over then: a second
    report of the descriptor finds no waiter and raises [KeyError]. *)
Theorem io_wait_round_trip (w : World) (task : tid) (f : fd) (timeout again : Z)
    (s : Scheduler) :
  epoll s !! f = None -> io_waiting s !! f = None ->
  (exists s1 s2,
     handle (ReadTask f) w task s = Return tt s1 /\
     io_waiting s1 !! f = Some task /\ epoll s1 !! f = Some EPOLLIN /\
     ready s1 = ready s /\ taskmap s1 = taskmap s /\
     __epoll timeout [f] s1 = Return tt s2 /\
     ready s2 = ready s ++ [task] /\
     io_waiting s2 = io_waiting s /\ epoll s2 = epoll s /\
     __epoll again [f] s2 = Raise KeyError (set_polled (fun p => p ++ [again]) s2)) /\
  (exists s1 s2,
     handle (WriteTask f) w task s = Return tt s1 /\
     io_waiting s1 !! f = Some task /\ epoll s1 !! f = Some EPOLLOUT /\
     ready s1 = ready s /\ taskmap s1 = taskmap s /\
     __epoll timeout [f] s1 = Return tt s2 /\
     ready s2 = ready s ++ [task] /\
     io_waiting s2 = io_waiting s /\ epoll s2 = epoll s /\
     __epoll again [f] s2 = Raise KeyError (set_polled (fun p => p ++ [again]) s2)).
Proof.
  intros Hep Hio. split.
  - apply (wait_for_io_fires EPOLLIN task f timeout again s Hep Hio).
  - apply (wait_for_io_fires EPOLLOUT task f timeout again s Hep Hio).
Qed.

Lemma io_wait_round_trip_witness :
  (exists s1 s2,
     handle (ReadTask 7) quiet 3 started = Return tt s1 /\
     io_waiting s1 !! 7 = Some 3 /\ epoll s1 !! 7 = Some EPOLLIN /\
     ready s1 = ready started /\ taskmap s1 = taskmap started /\
     __epoll 0 [7] s1 = Return tt s2 /\
     ready s2 = ready started ++ [3] /\
     io_waiting s2 = io_waiting started /\ epoll s2 = epoll started /\
     __epoll 0 [7] s2 = Raise KeyError (set_polled (fun p => p ++ [0]) s2)) /\
  (exists s1 s2,
     handle (WriteTask 7) quiet 3 started = Return tt s1 /\
     io_waiting s1 !! 7 = Some 3 /\ epoll s1 !! 7 = Some EPOLLOUT /\
     ready s1 = ready started /\ taskmap s1 = taskmap started /\
     __epoll 0 [7] s1 = Return tt s2 /\
     ready s2 = ready started ++ [3] /\
     io_waiting s2 = io_waiting started /\ epoll s2 = epoll started /\
     __epoll 0 [7] s2 = Raise KeyError (set_polled (fun p => p ++ [0]) s2)).
Proof.
  apply (io_wait_round_trip quiet 3 7 0 0 started).
  - vm_compute; reflexivity.
  - vm_compute; reflexivity.
Defined.

(** ** [joinall] *)

(** X11. [joinall] on identifiers none of which is in the registry (the list may
    be empty): the first time its task is dispatched it sets the event and
    finishes; the task leaves the registry. *)
Theorem joinall_nothing_to_wait (w : World) (s : Scheduler) (task : tid) (q : list tid)
    (coroutines : list tid) (event : nat) :
  reachable s -> running s = true -> ready s = task :: q ->
  target (objects s task) = wait_for_tasks coroutines event ->
  Forall (fun t => t ∉ taskmap s) coroutines ->
  exists s',
    run_iteration w s = Return (Dispatched task) s' /\
    event ∈ events s' /\
    (task ∉ taskmap s') /\
    target (objects s' task) = closed /\
    ready s' = q ++ default [] (exit_waiting s !! task).
Proof.
  intros Hreach Hrun Hready Htarget Hnone.
  pose proof (reachable_Inv _ Hreach) as HI.
  pose proof (Inv_dequeue _ _ _ HI Hready) as HI0.
  pose proof (Inv_at_not_registered _ _ HI0) as Hfresh.
  pose proof (reachable_dispatched_registered s task q Hreach Hready) as Hin.
  assert (Task_run w task (set_ready (fun _ => q) s) =
            Raise StopIteration
              (set_target task closed
                 (set_events (fun e => {[event]} ∪ e) (set_ready (fun _ => q) s)))) as Hstop.
  { rewrite (Task_run_wait_for_tasks w task _ coroutines event) by done.
    cbn. by rewrite (proj2 (wait_for_tasks_next_None (taskmap s) coroutines) Hnone). }
  destruct (notify_exit_total task
              (set_target task closed
                 (set_events (fun e => {[event]} ∪ e) (set_ready (fun _ => q) s))))
    as [s' Hn]; [done|].
  exists s'. split; [by eapply run_iteration_completes|].
  pose proof (notify_exit_objects _ _ _ Hn) as (Hobj & Hev & _).
  apply notify_exit_spec in Hn as (_ & Htm' & Hr' & _). cbn in *.
  split; [rewrite Hev; set_solver|].
  split.
  { rewrite Htm', elem_of_union, elem_of_list_to_set. intros [Hl|Hl]; [|set_solver].
    apply Hfresh. unfold placed. apply elem_of_app. right.
    destruct (exit_waiting s !! task) as [l|] eqn:El; cbn in Hl; [|by apply elem_of_nil in Hl].
    by apply (exit_member_placed (set_ready (fun _ => q) s) task l task). }
  split; [rewrite Hobj; cbn; by rewrite decide_True|done].
Qed.

Lemma joinall_nothing_to_wait_witness :
  exists s',
    run_iteration quiet (final (perform_all join_nobody started)) =
      Return (Dispatched 3) s' /\
    0%nat ∈ events s' /\
    (3 ∉ taskmap s') /\
    target (objects s' 3) = closed /\
    ready s' =
      [1; 2] ++ default [] (exit_waiting (final (perform_all join_nobody started)) !! 3).
Proof.
  apply (joinall_nothing_to_wait quiet (final (perform_all join_nobody started)) 3 [1; 2]
           [9] 0%nat).
  - exact join_nobody_reachable.
  - vm_compute; reflexivity.
  - vm_compute; reflexivity.
  - vm_compute; reflexivity.
  - apply Forall_singleton. decide_by_computation.
Defined.

(** X12. [joinall] waits for the first identifier of its list that is in the
    registry: the identifiers before it, which are not, are skipped; the
    task of [joinall] is filed in the list of [exit_waiting] of that
    identifier and leaves the registry and the ready queue; its event is
    not set, and the identifiers after that one are left to be looked at
    when it is resumed. *)
Theorem joinall_waits_in_order (w : World) (s : Scheduler) (task : tid) (q : list tid)
    (skipped : list tid) (t : tid) (rest : list tid) (event : nat) :
  reachable s -> running s = true -> ready s = task :: q ->
  target (objects s task) = wait_for_tasks (skipped ++ t :: rest) event ->
  Forall (fun x => x ∉ taskmap s) skipped -> t ∈ taskmap s ->
  exists s',
    run_iteration w s = Return (Dispatched task) s' /\
    exit_waiting s' !! t = Some (default [] (exit_waiting s !! t) ++ [task]) /\
    (task ∉ taskmap s') /\
    ready s' = q /\
    events s' = events s /\
    target (objects s' task) = wait_for_tasks rest event /\
    sendval (objects s' task) = VTrue.
Proof.
  intros Hreach Hrun Hready Htarget Hskip Ht.
  pose proof (reachable_dispatched_registered s task q Hreach Hready) as Hin.
  set (s1 := set_target task (wait_for_tasks rest event) (set_ready (fun _ => q) s)).
  assert (Task_run w task (set_ready (fun _ => q) s) = Return (Sys (WaitForTask t)) s1)
    as Hyield.
  { rewrite (Task_run_wait_for_tasks w task _ (skipped ++ t :: rest) event) by done.
    cbn. by rewrite (wait_for_tasks_next_first (taskmap s) skipped t rest). }
  pose proof (WaitForTask_handle_parks s1 t task Ht Hin) as Hh.
  eexists. split; [by eapply run_iteration_Sys|]. cbn.
  split; [apply lookup_insert_eq|]. split; [set_solver|].
  split; [done|]. split; [done|]. by rewrite !decide_True.
Qed.

Lemma joinall_waits_in_order_witness :
  exists s',
    run_iteration quiet (final (perform_all join_second started)) =
      Return (Dispatched 4) s' /\
    exit_waiting s' !! 3 =
      Some (default [] (exit_waiting (final (perform_all join_second started)) !! 3) ++ [4]) /\
    (4 ∉ taskmap s') /\
    ready s' = [1; 2; 3] /\
    events s' = events (final (perform_all join_second started)) /\
    target (objects s' 4) = wait_for_tasks [] 0%nat /\
    sendval (objects s' 4) = VTrue.
Proof.
  apply (joinall_waits_in_order quiet (final (perform_all join_second started)) 4 [1; 2; 3]
           [9] 3 [] 0%nat).
  - exact join_second_reachable.
  - vm_compute; reflexivity.
  - vm_compute; reflexivity.
  - vm_compute; reflexivity.
  - apply Forall_singleton. decide_by_computation.
  - by vm_compute.
Defined.

Lemma handle_events c w task s s' :
  handle c w task s = Return tt s' -> events s' = events s.
Proof.
  destruct c as [t|t|sec|f|f]; unfold handle.
  - rewrite KillTask_handle_state. intros [= <-]. cbn.
    by destruct (decide (t ∈ taskmap s)).
  - unfold WaitForTask_handle, wait_for_exit, taskmap_pop. run_monad.
    destruct (decide (t ∈ taskmap s)); cbn; [|by intros [= <-]].
    destruct (decide (task ∈ taskmap s)); cbn; [|done].
    by destruct (exit_waiting s !! t); cbn; intros [= <-].
  - unfold WaitForTime_handle, wait_for_time. destruct (Qeq_bool sec 0); run_monad; [done|].
    by intros [= <-].
  - unfold wait_for_read, epoll_register. run_monad. destruct (epoll s !! f); cbn; [done|].
    by intros [= <-].
  - unfold wait_for_write, epoll_register. run_monad. destruct (epoll s !! f); cbn; [done|].
    by intros [= <-].
Qed.

Lemma Task_run_events w task s y s1 :
  Task_run w task s = Return y s1 -> events s1 = events s.
Proof.
  unfold Task_run. run_monad.
  destruct (target (objects s task)) as [k| | |cs ev|]; cbn.
  - destruct (k _); cbn; try done. by intros [= _ <-].
  - unfold closing, io_epoll_turn, __epoll. run_monad.
    destruct (decide _); cbn; [by intros [= _ <-]|].
    destruct (epoll_events _ _) as [[] s2|e s2] eqn:E; cbn; [|done].
    intros [= _ <-]. by apply epoll_events_objects in E as (_ & E & _).
  - unfold time_poll_turn. run_monad. by intros [= _ <-].
  - destruct (wait_for_tasks_next _ _) as [[t rest]|]; cbn; [|done].
    by intros [= _ <-].
  - done.
Qed.

Lemma Task_run_StopIteration_events w task s s1 ev :
  Task_run w task s = Raise StopIteration s1 -> ev ∉ events s -> ev ∈ events s1 ->
  exists cs, target (objects s task) = wait_for_tasks cs ev /\
             Forall (fun t => t ∉ taskmap s) cs.
Proof.
  unfold Task_run. run_monad.
  destruct (target (objects s task)) as [k| | |cs ev'|]; cbn.
  - destruct (k _) as [|e|]; cbn; try done.
    + by intros [= <-].
    + by intros [= -> <-].
  - unfold closing, io_epoll_turn, __epoll. run_monad.
    destruct (decide _); cbn; [done|].
    destruct (epoll_events _ _) as [|e s2] eqn:E; cbn; [done|].
    intros [= -> _]. apply epoll_events_raises in E. naive_solver.
  - unfold time_poll_turn. run_monad. done.
  - destruct (wait_for_tasks_next _ _) as [[t rest]|] eqn:E; cbn; [done|].
    intros [= <-] Hn Hin. cbn in Hin.
    assert (ev = ev') as -> by set_solver.
    exists cs. split; [done|]. by apply wait_for_tasks_next_None.
  - by intros [= <-].
Qed.

(** X13. The event of a [joinall] is set by no call but an iteration that
    dispatches the task of that [joinall] when none of the identifiers it
    still has to look at is in the registry. *)
Theorem joinall_event_set (c : call) (s s' : Scheduler) (event : nat) :
  event ∉ events s -> perform c s = Return tt s' -> event ∈ events s' ->
  exists w task q coroutines,
    c = Iterate w /\ ready s = task :: q /\
    target (objects s task) = wait_for_tasks coroutines event /\
    Forall (fun t => t ∉ taskmap s) coroutines.
Proof.
  intros Hn Hc Hin.
  destruct c as [w|b t|cs ev t|]; unfold perform in Hc.
  - unfold bind at 1 in Hc.
    destruct (run_iteration w s) as [st s2|] eqn:Hit; [|done]. injection Hc as <-.
    apply run_iteration_cases in Hit.
    destruct Hit as [(_ & _ & ->)|[(_ & _ & _ & ->)|(x & q & _ & Hready & _ & Hcase)]];
      [done|done|].
    exists w, x, q.
    destruct Hcase as [(s1 & Hrun & ->)|[(c & s1 & Hrun & Hh)|(s1 & Hrun & Hs)]].
    + apply Task_run_events in Hrun. cbn in *. by rewrite Hrun in Hin.
    + apply Task_run_events in Hrun. apply handle_events in Hh. cbn in *.
      by rewrite Hh, Hrun in Hin.
    + apply notify_exit_objects in Hs as (_ & Hev & _). rewrite Hev in Hin.
      destruct (Task_run_StopIteration_events _ _ _ _ _ Hrun Hn Hin) as (cs & Ht & Hcs).
      by exists cs.
  - unfold new in Hc. run_monad. injection Hc as <-. done.
  - unfold joinall, new in Hc. run_monad. injection Hc as <-. done.
  - unfold shutdown in Hc. run_monad. injection Hc as <-. done.
Qed.

Lemma joinall_event_set_witness :
  exists w task q coroutines,
    Iterate quiet = Iterate w /\
    ready (final (perform_all join_nobody started)) = task :: q /\
    target (objects (final (perform_all join_nobody started)) task) =
      wait_for_tasks coroutines 0%nat /\
    Forall (fun t => t ∉ taskmap (final (perform_all join_nobody started))) coroutines.
Proof.
  apply (joinall_event_set (Iterate quiet) (final (perform_all join_nobody started))
           (final (perform_all (join_nobody ++ [Iterate quiet]) started)) 0%nat).
  - decide_by_computation.
  - vm_compute; reflexivity.
  - by vm_compute.
Defined.

(** ** [shutdown], closed generators and the ready queue *)

Lemma stopped_perform c s :
  running s = false ->
  exists s',
    perform c s = Return tt s' /\ running s' = false /\
    ready s `prefix_of` ready s' /\
    io_waiting s' = io_waiting s /\ time_waiting s' = time_waiting s /\
    exit_waiting s' = exit_waiting s /\ polled s' = polled s /\ events s' = events s.
Proof.
  intros Hrun. destruct c as [w|b t|cs ev t|]; unfold perform.
  - exists s. split; [|done].
    cbv beta iota delta [run_iteration bind get ret]. by rewrite Hrun.
  - eexists. split; [reflexivity|]. cbn. split; [done|].
    split; [by apply prefix_app_r|done].
  - eexists. split; [reflexivity|]. cbn. split; [done|].
    split; [by apply prefix_app_r|done].
  - eexists. split; [reflexivity|]. by cbn.
Qed.

(** X14. [shutdown] called while the ready queue is not empty, so that the
    loop is not waiting in [ready.get()], is final.  Whatever calls follow
    it, none raises, [running] stays false and every iteration leaves the
    loop at once without dispatching: the tasks on the ready queue stay
    there, more may be put behind them by [new], and the waiting tasks are
    left where they are. *)
Theorem shutdown_is_final (cs : list call) (s : Scheduler) :
  ready s <> [] ->
  exists s',
    perform_all (Shutdown :: cs) s = Return tt s' /\
    running s' = false /\
    (forall w, run_iteration w s' = Return Stopped s') /\
    ready s `prefix_of` ready s' /\
    io_waiting s' = io_waiting s /\ time_waiting s' = time_waiting s /\
    exit_waiting s' = exit_waiting s /\ polled s' = polled s /\ events s' = events s.
Proof.
  intros _.
  assert (forall cs s, running s = false ->
            exists s', perform_all cs s = Return tt s' /\ running s' = false /\
              ready s `prefix_of` ready s' /\
              io_waiting s' = io_waiting s /\ time_waiting s' = time_waiting s /\
              exit_waiting s' = exit_waiting s /\ polled s' = polled s /\
              events s' = events s) as Hall.
  { clear. induction cs as [|c cs IH]; intros s Hrun.
    - exists s. by repeat split.
    - destruct (stopped_perform c s Hrun) as (s1 & Hc & Hrun1 & Hp & Hio & Htw & Hex & Hpo & Hev).
      destruct (IH s1 Hrun1) as (s' & Hcs & Hrun' & Hp' & Hio' & Htw' & Hex' & Hpo' & Hev').
      exists s'. split.
      { cbn [perform_all]. unfold bind at 1. by rewrite Hc. }
      split; [done|]. split; [by etrans|].
      by rewrite Hio', Htw', Hex', Hpo', Hev'. }
  destruct (Hall cs (set_running false s)) as (s' & Hcs & Hrun' & Hrest); [done|].
  exists s'. split; [by cbn [perform_all perform]|]. split; [done|].
  split; [|done]. intros w.
  cbv beta iota delta [run_iteration bind get ret]. by rewrite Hrun'.
Qed.

Lemma shutdown_is_final_witness :
  exists s',
    perform_all (Shutdown :: [Iterate quiet; New worker 3; Iterate quiet]) started =
      Return tt s' /\
    running s' = false /\
    (forall w, run_iteration w s' = Return Stopped s') /\
    ready started `prefix_of` ready s' /\
    io_waiting s' = io_waiting started /\ time_waiting s' = time_waiting started /\
    exit_waiting s' = exit_waiting started /\ polled s' = polled started /\
    events s' = events started.
Proof.
  apply (shutdown_is_final [Iterate quiet; New worker 3; Iterate quiet] started).
  vm_compute. discriminate.
Defined.

Lemma handle_closed c w task s s' t :
  handle c w task s = Return tt s' ->
  target (objects s t) = closed -> target (objects s' t) = closed.
Proof.
  destruct c as [k|k|sec|f|f]; unfold handle.
  - rewrite KillTask_handle_state. intros [= <-] Ht. cbn.
    destruct (decide (k ∈ taskmap s)); cbn; destruct (decide (t = task)); cbn; try done;
      by destruct (decide (t = k)).
  - unfold WaitForTask_handle, wait_for_exit, taskmap_pop. run_monad.
    destruct (decide (k ∈ taskmap s)); cbn.
    + destruct (decide (task ∈ taskmap s)); cbn; [|done].
      destruct (exit_waiting s !! k); cbn; intros [= <-] Ht; cbn;
        by destruct (decide (t = task)).
    + intros [= <-] Ht. cbn. by destruct (decide (t = task)).
  - unfold WaitForTime_handle, wait_for_time. destruct (Qeq_bool sec 0); run_monad; [done|].
    by intros [= <-].
  - unfold wait_for_read, epoll_register. run_monad. destruct (epoll s !! f); cbn; [done|].
    by intros [= <-].
  - unfold wait_for_write, epoll_register. run_monad. destruct (epoll s !! f); cbn; [done|].
    by intros [= <-].
Qed.

Lemma Task_run_closed_other w task s y s1 t :
  Task_run w task s = Return y s1 ->
  target (objects s t) = closed -> target (objects s1 t) = closed /\ t <> task.
Proof.
  intros Hrun Ht. destruct (decide (t = task)) as [->|Hne].
  { by rewrite (Task_run_closed w task s Ht) in Hrun. }
  split; [|done]. revert Hrun. unfold Task_run. run_monad.
  destruct (target (objects s task)) as [k| | |cs ev|]; cbn.
  - destruct (k _); cbn; try done. intros [= _ <-]. cbn. by rewrite decide_False.
  - unfold closing, io_epoll_turn, __epoll. run_monad.
    destruct (decide _); cbn; [by intros [= _ <-]|].
    destruct (epoll_events _ _) as [[] s2|e s2] eqn:E; cbn; [|done].
    intros [= _ <-]. apply epoll_events_objects in E as (E & _). by rewrite E.
  - unfold time_poll_turn. run_monad. by intros [= _ <-].
  - destruct (wait_for_tasks_next _ _) as [[t' rest]|]; cbn; [|done].
    intros [= _ <-]. cbn. by rewrite decide_False.
  - done.
Qed.

Lemma Task_run_StopIteration_closed w task s s1 t :
  Task_run w task s = Raise StopIteration s1 ->
  target (objects s t) = closed -> target (objects s1 t) = closed.
Proof.
  unfold Task_run. run_monad.
  destruct (target (objects s task)) as [k| | |cs ev|] eqn:Ht; cbn.
  - destruct (k _) as [|e|]; cbn; try done.
    + intros [= <-]. cbn. by destruct (decide (t = task)).
    + intros [= -> <-]. cbn. by destruct (decide (t = task)).
  - unfold closing, io_epoll_turn, __epoll. run_monad.
    destruct (decide _); cbn; [done|].
    destruct (epoll_events _ _) as [|e s2] eqn:E; cbn; [done|].
    intros [= -> _]. apply epoll_events_raises in E. naive_solver.
  - unfold time_poll_turn. run_monad. done.
  - destruct (wait_for_tasks_next _ _) as [[t' rest]|]; cbn; [done|].
    intros [= <-]. cbn. by destruct (decide (t = task)).
  - by intros [= <-].
Qed.

(** X15. A generator that is closed, because its task has been killed or has
    finished, stays closed as long as the task is in the registry: no call
    resumes it, and when the task is dispatched the resume signals
    completion without running anything. *)
Theorem closed_is_final (c : call) (s s' : Scheduler) (t : tid) :
  target (objects s t) = closed -> t ∈ taskmap s ->
  allowed s c -> perform c s = Return tt s' ->
  target (objects s' t) = closed /\
  (forall w, Task_run w t s' = Raise StopIteration s').
Proof.
  intros Ht Hin Hall Hc.
  assert (target (objects s' t) = closed) as Ht'.
  { destruct c as [w|b k|cs ev k|]; unfold perform in Hc.
    - unfold bind at 1 in Hc.
      destruct (run_iteration w s) as [st s2|] eqn:Hit; [|done]. injection Hc as <-.
      apply run_iteration_cases in Hit.
      destruct Hit as [(_ & _ & ->)|[(_ & _ & _ & ->)|(x & q & _ & Hready & _ & Hcase)]];
        [done|done|].
      destruct Hcase as [(s1 & Hrun & ->)|[(c & s1 & Hrun & Hh)|(s1 & Hrun & Hn)]].
      + by apply (Task_run_closed_other _ _ _ _ _ t) in Hrun as [? _].
      + apply (Task_run_closed_other _ _ _ _ _ t) in Hrun as [? _]; [|done].
        by eapply handle_closed.
      + apply notify_exit_objects in Hn as (Hobj & _). rewrite Hobj.
        by eapply Task_run_StopIteration_closed.
    - destruct Hall as [Hfresh _].
      unfold new in Hc. run_monad. injection Hc as <-. cbn.
      rewrite decide_False; [done|]. by intros ->.
    - destruct Hall as [Hfresh _].
      unfold joinall, new in Hc. run_monad. injection Hc as <-. cbn.
      rewrite decide_False; [done|]. by intros ->.
    - unfold shutdown in Hc. run_monad. by injection Hc as <-. }
  split; [done|]. intros w. by apply Task_run_closed.
Qed.

Lemma closed_is_final_witness :
  target (objects (final (perform_all (take 5 lonely_poll) started)) 2) = closed /\
  (forall w, Task_run w 2 (final (perform_all (take 5 lonely_poll) started)) =
             Raise StopIteration (final (perform_all (take 5 lonely_poll) started))).
Proof.
  apply (closed_is_final (Iterate quiet) (final (perform_all (take 4 lonely_poll) started))
           (final (perform_all (take 5 lonely_poll) started)) 2).
  - vm_compute; reflexivity.
  - by vm_compute.
  - exact I.
  - vm_compute; reflexivity.
Defined.

(** X16. A task that kills itself: the handler closes the task's own generator
    and puts the task back on the ready queue, still in the registry; the
    result [True] is never delivered, since the next resume of the task
    signals completion. *)
Theorem self_kill (w : World) (s : Scheduler) (task : tid) (q : list tid)
    (k k' : value -> body) :
  running s = true -> ready s = task :: q ->
  target (objects s task) = Gen k ->
  k (sendval (objects s task)) = Yield (Sys (KillTask task)) k' ->
  task ∈ taskmap s ->
  exists s',
    run_iteration w s = Return (Dispatched task) s' /\
    ready s' = q ++ [task] /\
    task ∈ taskmap s' /\
    target (objects s' task) = closed /\
    sendval (objects s' task) = VTrue /\
    (forall w', Task_run w' task s' = Raise StopIteration s').
Proof.
  intros Hrun Hready Hgen Hyield Hin.
  set (s1 := set_target task (Gen k') (set_ready (fun _ => q) s)).
  assert (Task_run w task (set_ready (fun _ => q) s) = Return (Sys (KillTask task)) s1)
    as Hres.
  { rewrite (Task_run_Gen w task _ k) by done. cbn. by rewrite Hyield. }
  eexists. split.
  { eapply run_iteration_Sys; [done|done|exact Hres|].
    unfold handle. apply KillTask_handle_state. }
  cbn. rewrite (decide_True (P := task ∈ taskmap s)) by done. cbn.
  rewrite !decide_True by done. cbn.
  split; [done|]. split; [done|]. split; [done|]. split; [done|].
  intros w'. reflexivity.
Qed.

Lemma self_kill_witness :
  exists s',
    run_iteration quiet (final (perform_all kills_itself started)) =
      Return (Dispatched 3) s' /\
    ready s' = [1; 2] ++ [3] /\
    3 ∈ taskmap s' /\
    target (objects s' 3) = closed /\
    sendval (objects s' 3) = VTrue /\
    (forall w', Task_run w' 3 s' = Raise StopIteration s').
Proof.
  apply (self_kill quiet (final (perform_all kills_itself started)) 3 [1; 2]
           (fun _ => Yield (Sys (KillTask 3)) (fun _ => worker)) (fun _ => worker)).
  - vm_compute; reflexivity.
  - vm_compute; reflexivity.
  - vm_compute; reflexivity.
  - reflexivity.
  - by vm_compute.
Defined.

Lemma epoll_events_ready fdevents s s' :
  epoll_events fdevents s = Return tt s' -> ready s `prefix_of` ready s'.
Proof.
  revert s. induction fdevents as [|f rest IH]; intros s; cbn.
  - by intros [= <-].
  - unfold epoll_unregister. run_monad.
    destruct (io_waiting s !! f) as [t|]; cbn; [|done].
    destruct (epoll s !! f); cbn; [|done].
    intros H. apply IH in H. cbn in H. etrans; [|exact H]. by apply prefix_app_r.
Qed.

Lemma Task_run_ready w task s y s1 :
  Task_run w task s = Return y s1 -> ready s `prefix_of` ready s1.
Proof.
  unfold Task_run. run_monad.
  destruct (target (objects s task)) as [k| | |cs ev|]; cbn.
  - destruct (k _); cbn; try done. by intros [= _ <-].
  - unfold closing, io_epoll_turn, __epoll. run_monad.
    destruct (decide _); cbn; [by intros [= _ <-]|].
    destruct (epoll_events _ _) as [[] s2|e s2] eqn:E; cbn; [|done].
    intros [= _ <-]. by apply epoll_events_ready in E.
  - unfold time_poll_turn. run_monad. intros [= _ <-]. cbn. by apply prefix_app_r.
  - destruct (wait_for_tasks_next _ _) as [[t rest]|]; cbn; [|done].
    by intros [= _ <-].
  - done.
Qed.

Lemma handle_ready c w task s s' :
  handle c w task s = Return tt s' -> ready s `prefix_of` ready s'.
Proof.
  destruct c as [t|t|sec|f|f]; unfold handle.
  - rewrite KillTask_handle_state. intros [= <-]. cbn.
    destruct (decide (t ∈ taskmap s)); by apply prefix_app_r.
  - unfold WaitForTask_handle, wait_for_exit, taskmap_pop. run_monad.
    destruct (decide (t ∈ taskmap s)); cbn.
    + destruct (decide (task ∈ taskmap s)); cbn; [|done].
      by destruct (exit_waiting s !! t); cbn; intros [= <-].
    + intros [= <-]. cbn. by apply prefix_app_r.
  - unfold WaitForTime_handle, wait_for_time. destruct (Qeq_bool sec 0); run_monad; [done|].
    by intros [= <-].
  - unfold wait_for_read, epoll_register. run_monad. destruct (epoll s !! f); cbn; [done|].
    by intros [= <-].
  - unfold wait_for_write, epoll_register. run_monad. destruct (epoll s !! f); cbn; [done|].
    by intros [= <-].
Qed.

(** X17. The ready queue is first in, first out.  A call that returns either
    leaves the tasks of the queue in place or takes the first one, to
    dispatch it; whatever it puts on the queue goes behind the tasks that
    were there, so that no task is overtaken or dropped from the queue. *)
Theorem ready_is_fifo (c : call) (s s' : Scheduler) :
  perform c s = Return tt s' ->
  ready s `prefix_of` ready s' \/
  (exists w task q,
     c = Iterate w /\ running s = true /\ ready s = task :: q /\
     q `prefix_of` ready s').
Proof.
  intros Hc. destruct c as [w|b t|cs ev t|]; unfold perform in Hc.
  - unfold bind at 1 in Hc.
    destruct (run_iteration w s) as [st s2|] eqn:Hit; [|done]. injection Hc as <-.
    apply run_iteration_cases in Hit.
    destruct Hit as [(_ & _ & ->)|[(_ & _ & _ & ->)|(x & q & Hrun & Hready & _ & Hcase)]];
      [by left|by left|].
    right. exists w, x, q. repeat split; try done.
    destruct Hcase as [(s1 & Hrun1 & ->)|[(c & s1 & Hrun1 & Hh)|(s1 & Hrun1 & Hn)]].
    + apply Task_run_ready in Hrun1. cbn in *. etrans; [exact Hrun1|]. by apply prefix_app_r.
    + apply Task_run_ready in Hrun1. apply handle_ready in Hh. cbn in *. by etrans.
    + apply Task_run_StopIteration in Hrun1 as (Hr & _).
      apply notify_exit_spec in Hn as (_ & _ & Hr' & _). cbn in *.
      rewrite Hr', Hr. by apply prefix_app_r.
  - unfold new in Hc. run_monad. injection Hc as <-. left. cbn. by apply prefix_app_r.
  - unfold joinall, new in Hc. run_monad. injection Hc as <-. left. cbn.
    by apply prefix_app_r.
  - unfold shutdown in Hc. run_monad. injection Hc as <-. by left.
Qed.

Lemma ready_is_fifo_witness :
  ready (final (perform_all reading started)) `prefix_of`
    ready (final (perform_all (reading ++ [Iterate readable]) started)) \/
  (exists w task q,
     Iterate readable = Iterate w /\
     running (final (perform_all reading started)) = true /\
     ready (final (perform_all reading started)) = task :: q /\
     q `prefix_of` ready (final (perform_all (reading ++ [Iterate readable]) started))).
Proof.
  apply (ready_is_fifo (Iterate readable) (final (perform_all reading started))
           (final (perform_all (reading ++ [Iterate readable]) started))).
  vm_compute; reflexivity.
Defined.

(** ** Generators, the registry and pending results *)

Lemma Task_run_target_other w task s y s1 T :
  Task_run w task s = Return y s1 -> T <> task ->
  target (objects s1 T) = target (objects s T).
Proof.
  intros Hrun HT. unfold Task_run in Hrun. run_monad.
  destruct (target (objects s task)) as [k| | |cs ev|] eqn:Htarget; cbn in Hrun.
  - destruct (k _); cbn in Hrun; try done. injection Hrun as _ <-. cbn.
    by rewrite decide_False.
  - unfold closing, io_epoll_turn, __epoll in Hrun. run_monad.
    destruct (decide _); cbn in Hrun; [by injection Hrun as _ <-|].
    destruct (epoll_events _ _) as [[] s2|e s2] eqn:E; cbn in Hrun; [|done].
    injection Hrun as _ <-. apply epoll_events_objects in E as (E & _). by rewrite E.
  - unfold time_poll_turn in Hrun. run_monad. by injection Hrun as _ <-.
  - destruct (wait_for_tasks_next _ _) as [[t rest]|]; cbn in Hrun; [|done].
    injection Hrun as _ <-. cbn. by rewrite decide_False.
  - done.
Qed.

Lemma Task_run_StopIteration_target w task s s1 :
  Task_run w task s = Raise StopIteration s1 ->
  target (objects s1 task) = closed /\
  (forall T, T <> task -> target (objects s1 T) = target (objects s T)).
Proof.
  intros Hrun. unfold Task_run in Hrun. run_monad.
  destruct (target (objects s task)) as [k| | |cs ev|] eqn:Htarget; cbn in Hrun.
  - destruct (k _); cbn in Hrun; try done.
    + injection Hrun as <-. cbn. rewrite decide_True by done. split; [done|].
      intros T HT. by rewrite decide_False.
    + injection Hrun as -> <-. cbn. rewrite decide_True by done. split; [done|].
      intros T HT. by rewrite decide_False.
  - unfold closing, io_epoll_turn, __epoll in Hrun. run_monad.
    destruct (decide _); cbn in Hrun; [done|].
    destruct (epoll_events _ _) as [[] s2|e s2] eqn:E; cbn in Hrun; [done|].
    injection Hrun as -> <-. by apply epoll_events_raises in E as [?|?].
  - unfold time_poll_turn in Hrun. run_monad. done.
  - destruct (wait_for_tasks_next _ _) as [[t rest]|]; cbn in Hrun; [done|].
    injection Hrun as <-. cbn. rewrite decide_True by done. split; [done|].
    intros T HT. by rewrite decide_False.
  - injection Hrun as <-. done.
Qed.

Lemma handle_known c w task s s' T :
  handle c w task s = Return tt s' -> task ∈ taskmap s ->
  T ∈ taskmap s \/ T ∈ exit_tasks s -> T ∈ taskmap s' \/ T ∈ exit_tasks s'.
Proof.
  intros Hh Htask HT. destruct c as [t|t|sec|f|f]; unfold handle in Hh.
  - rewrite KillTask_handle_state in Hh. injection Hh as <-.
    by destruct (decide (t ∈ taskmap s)).
  - destruct (decide (t ∈ taskmap s)) as [Hin|Hout].
    + rewrite WaitForTask_handle_parks in Hh by done. injection Hh as <-.
      unfold exit_tasks in *. cbn. rewrite exit_lists_insert.
      rewrite (exit_lists_split (exit_waiting s) t) in HT.
      destruct (decide (T = task)) as [->|Hne]; [right; set_solver|].
      destruct HT as [HT|HT]; [left; set_solver|right; set_solver].
    + rewrite WaitForTask_handle_absent in Hh by done. by injection Hh as <-.
  - unfold WaitForTime_handle, wait_for_time in Hh.
    destruct (Qeq_bool sec 0); run_monad; [done|]. by injection Hh as <-.
  - unfold wait_for_read, epoll_register in Hh. run_monad.
    destruct (epoll s !! f); cbn in Hh; [done|]. by injection Hh as <-.
  - unfold wait_for_write, epoll_register in Hh. run_monad.
    destruct (epoll s !! f); cbn in Hh; [done|]. by injection Hh as <-.
Qed.

Lemma perform_live_known c s s' :
  reachable s -> live_known s -> perform c s = Return tt s' -> live_known s'.
Proof.
  intros Hreach Hs Hc T HT. destruct c as [w|b t|cs ev t|]; unfold perform in Hc.
  - unfold bind at 1 in Hc.
    destruct (run_iteration w s) as [st s2|] eqn:Hit; [|done]. injection Hc as <-.
    apply run_iteration_cases in Hit.
    destruct Hit as [(_ & _ & ->)|[(_ & _ & _ & ->)|(task & q & _ & Hready & _ & Hcase)]];
      [by apply Hs|by apply Hs|].
    pose proof (reachable_dispatched_registered s task q Hreach Hready) as Htask.
    destruct Hcase as [(s1 & Hrun & ->)|[(c & s1 & Hrun & Hh)|(s1 & Hrun & Hn)]].
    + pose proof (Task_run_taskmap _ _ _ _ _ Hrun) as Htm.
      pose proof (Task_run_exit_waiting _ _ _ _ _ Hrun) as Hex. cbn in Htm, Hex.
      unfold exit_tasks. cbn in *. rewrite Htm, Hex.
      destruct (decide (T = task)) as [->|Hne]; [by left|].
      rewrite (Task_run_target_other _ _ _ _ _ T Hrun Hne) in HT. by apply Hs.
    + pose proof (Task_run_taskmap _ _ _ _ _ Hrun) as Htm.
      pose proof (Task_run_exit_waiting _ _ _ _ _ Hrun) as Hex. cbn in Htm, Hex.
      apply (handle_known _ _ _ _ _ T Hh); [by rewrite Htm|].
      rewrite Htm. unfold exit_tasks. rewrite Hex.
      destruct (decide (T = task)) as [->|Hne]; [by left|].
      apply Hs.
      intros Hcl. apply HT. apply (handle_closed _ _ _ _ _ T Hh).
      by rewrite (Task_run_target_other _ _ _ _ _ T Hrun Hne).
    + destruct (Task_run_StopIteration_target _ _ _ _ Hrun) as (Hclosed & Hother).
      destruct (Task_run_StopIteration _ _ _ _ Hrun) as (_ & Htm & Hex & _).
      cbn in Htm, Hex.
      destruct (notify_exit_objects _ _ _ Hn) as (Hobj & _).
      apply notify_exit_spec in Hn as (_ & Htm' & _ & Hex' & _).
      rewrite Hobj in HT.
      destruct (decide (T = task)) as [->|Hne]; [done|].
      rewrite (Hother T Hne) in HT. cbn in HT.
      unfold exit_tasks. rewrite Htm', Hex', Htm, Hex.
      destruct (Hs T HT) as [Hin|Hin]; [left; set_solver|].
      unfold exit_tasks in Hin. rewrite (exit_lists_split (exit_waiting s) task) in Hin.
      apply elem_of_app in Hin as [Hin|Hin]; [left|by right].
      apply elem_of_union. left. by apply elem_of_list_to_set.
  - unfold new in Hc. run_monad. injection Hc as <-. cbn in *.
    destruct (decide (T = t)) as [->|Hne]; [left; set_solver|].
    destruct (Hs T HT) as [Hin|Hin]; [left; set_solver|by right].
  - unfold joinall, new in Hc. run_monad. injection Hc as <-. cbn in *.
    destruct (decide (T = t)) as [->|Hne]; [left; set_solver|].
    destruct (Hs T HT) as [Hin|Hin]; [left; set_solver|by right].
  - unfold shutdown in Hc. run_monad. injection Hc as <-. by apply Hs.
Qed.

Lemma reachable_live_known s : reachable s -> live_known s.
Proof.
  induction 1 as [io_tid time_tid s Hne Hstart|s c s' Hreach IH Hall Hc].
  - intros T HT. unfold run_start, new in Hstart. run_monad. injection Hstart as <-.
    cbn in *. left.
    destruct (decide (T = time_tid)) as [->|]; [set_solver|].
    destruct (decide (T = io_tid)) as [->|]; [set_solver|done].
  - by eapply perform_live_known.
Qed.

Lemma handle_unknown c w task s s' T :
  handle c w task s = Return tt s' -> T <> task ->
  T ∉ taskmap s -> T ∉ exit_tasks s -> (T ∉ taskmap s') /\ (T ∉ exit_tasks s').
Proof.
  intros Hh Hne HT HT'. destruct c as [t|t|sec|f|f]; unfold handle in Hh.
  - rewrite KillTask_handle_state in Hh. injection Hh as <-.
    by destruct (decide (t ∈ taskmap s)).
  - destruct (decide (t ∈ taskmap s)) as [Hin|Hout].
    + destruct (decide (task ∈ taskmap s)) as [Htask|Htask].
      * rewrite WaitForTask_handle_parks in Hh by done. injection Hh as <-.
        unfold exit_tasks in *. cbn. rewrite exit_lists_insert.
        rewrite (exit_lists_split (exit_waiting s) t) in HT'.
        split; set_solver.
      * unfold WaitForTask_handle, wait_for_exit, taskmap_pop in Hh. run_monad.
        rewrite decide_True in Hh by done. cbn in Hh.
        by rewrite decide_False in Hh by done.
    + rewrite WaitForTask_handle_absent in Hh by done. by injection Hh as <-.
  - unfold WaitForTime_handle, wait_for_time in Hh.
    destruct (Qeq_bool sec 0); run_monad; [done|]. by injection Hh as <-.
  - unfold wait_for_read, epoll_register in Hh. run_monad.
    destruct (epoll s !! f); cbn in Hh; [done|]. by injection Hh as <-.
  - unfold wait_for_write, epoll_register in Hh. run_monad.
    destruct (epoll s !! f); cbn in Hh; [done|]. by injection Hh as <-.
Qed.

Lemma perform_stays_out c s s' T :
  reachable s -> T ∉ taskmap s -> T ∉ exit_tasks s ->
  perform c s = Return tt s' ->
  (forall b, c <> New b T) -> (forall cs ev, c <> Joinall cs ev T) ->
  (T ∉ taskmap s') /\ (T ∉ exit_tasks s').
Proof.
  intros Hreach HT HT' Hc Hnew Hjoin.
  destruct c as [w|b t|cs ev t|]; unfold perform in Hc.
  - unfold bind at 1 in Hc.
    destruct (run_iteration w s) as [st s2|] eqn:Hit; [|done]. injection Hc as <-.
    apply run_iteration_cases in Hit.
    destruct Hit as [(_ & _ & ->)|[(_ & _ & _ & ->)|(task & q & _ & Hready & _ & Hcase)]];
      [done|done|].
    pose proof (reachable_dispatched_registered s task q Hreach Hready) as Htask.
    assert (T <> task) as Hne by (by intros ->).
    destruct Hcase as [(s1 & Hrun & ->)|[(c & s1 & Hrun & Hh)|(s1 & Hrun & Hn)]].
    + pose proof (Task_run_taskmap _ _ _ _ _ Hrun) as Htm.
      pose proof (Task_run_exit_waiting _ _ _ _ _ Hrun) as Hex. cbn in Htm, Hex.
      unfold exit_tasks in *. cbn. by rewrite Htm, Hex.
    + pose proof (Task_run_taskmap _ _ _ _ _ Hrun) as Htm.
      pose proof (Task_run_exit_waiting _ _ _ _ _ Hrun) as Hex. cbn in Htm, Hex.
      apply (handle_unknown _ _ _ _ _ T Hh Hne); [by rewrite Htm|].
      unfold exit_tasks in *. by rewrite Hex.
    + destruct (Task_run_StopIteration _ _ _ _ Hrun) as (_ & Htm & Hex & _).
      cbn in Htm, Hex.
      apply notify_exit_spec in Hn as (_ & Htm' & _ & Hex' & _).
      unfold exit_tasks in *. rewrite Htm', Hex', Htm, Hex.
      rewrite (exit_lists_split (exit_waiting s) task) in HT'.
      split; [|set_solver].
      rewrite elem_of_union, elem_of_list_to_set. set_solver.
  - unfold new in Hc. run_monad. injection Hc as <-. cbn.
    split; [|done]. specialize (Hnew b). set_solver.
  - unfold joinall, new in Hc. run_monad. injection Hc as <-. cbn.
    split; [|done]. specialize (Hjoin cs ev). set_solver.
  - unfold shutdown in Hc. run_monad. by injection Hc as <-.
Qed.

Lemma Task_run_resume w task s k :
  target (objects s task) = Gen k ->
  Task_run w task s = resume task k (sendval (objects s task)) s.
Proof. intros Htarget. unfold resume. by apply Task_run_Gen. Qed.

Lemma handle_other c w x s s' T :
  handle c w x s = Return tt s' -> T <> x ->
  sendval (objects s' T) = sendval (objects s T) /\
  (target (objects s' T) = target (objects s T) \/ c = KillTask T).
Proof.
  intros Hh Hne. destruct c as [t|t|sec|f|f]; unfold handle in Hh.
  - rewrite KillTask_handle_state in Hh. injection Hh as <-.
    destruct (decide (t ∈ taskmap s)); cbn; rewrite decide_False by done.
    + destruct (decide (T = t)) as [->|]; [split; [done|by right]|].
      split; [done|by left].
    + split; [done|by left].
  - unfold WaitForTask_handle, wait_for_exit, taskmap_pop in Hh. run_monad.
    destruct (decide (t ∈ taskmap s)); cbn in Hh.
    + destruct (decide (x ∈ taskmap s)); cbn in Hh; [|done].
      destruct (exit_waiting s !! t); cbn in Hh; injection Hh as <-; cbn;
        rewrite decide_False by done; by split; [|left].
    + injection Hh as <-. cbn. rewrite decide_False by done. by split; [|left].
  - unfold WaitForTime_handle, wait_for_time in Hh.
    destruct (Qeq_bool sec 0); run_monad; [done|]. injection Hh as <-. by split; [|left].
  - unfold wait_for_read, epoll_register in Hh. run_monad.
    destruct (epoll s !! f); cbn in Hh; [done|]. injection Hh as <-. by split; [|left].
  - unfold wait_for_write, epoll_register in Hh. run_monad.
    destruct (epoll s !! f); cbn in Hh; [done|]. injection Hh as <-. by split; [|left].
Qed.

(** A task that waits on the ready queue for its turn: a call that
    returns leaves it on the queue with the value of its next resume as it
    is, and leaves its generator as it is unless the task dispatched
    yields [KillTask] on it. *)
Lemma perform_keeps_pending c s s' task :
  allowed s c -> perform c s = Return tt s' ->
  task ∈ ready s -> (forall q, ready s <> task :: q) ->
  task ∈ ready s' /\
  sendval (objects s' task) = sendval (objects s task) /\
  (target (objects s' task) = target (objects s task) \/
   exists w x q s1,
     c = Iterate w /\ ready s = x :: q /\
     Task_run w x (set_ready (fun _ => q) s) = Return (Sys (KillTask task)) s1).
Proof.
  intros Hall Hc Hin Hhead. destruct c as [w|b t|cs ev t|]; unfold perform in Hc.
  - unfold bind at 1 in Hc.
    destruct (run_iteration w s) as [st s2|] eqn:Hit; [|done]. injection Hc as <-.
    apply run_iteration_cases in Hit.
    destruct Hit as [(_ & _ & ->)|[(_ & _ & _ & ->)|(x & q & _ & Hready & _ & Hcase)]];
      [by split; [|split; [|left]]|by split; [|split; [|left]]|].
    assert (task <> x) as Hne by (intros ->; by apply (Hhead q)).
    assert (task ∈ q) as Hq by (rewrite Hready in Hin; set_solver).
    destruct Hcase as [(s1 & Hrun & ->)|[(c & s1 & Hrun & Hh)|(s1 & Hrun & Hn)]].
    + pose proof (Task_run_ready _ _ _ _ _ Hrun) as [l Hl]. cbn in Hl.
      split; [cbn; rewrite Hl; set_solver|]. cbn.
      split; [by rewrite (Task_run_sendval _ _ _ _ _ task Hrun)|].
      left. by rewrite (Task_run_target_other _ _ _ _ _ task Hrun Hne).
    + pose proof (Task_run_ready _ _ _ _ _ Hrun) as [l Hl]. cbn in Hl.
      pose proof (handle_ready _ _ _ _ _ Hh) as [l' Hl'].
      destruct (handle_other _ _ _ _ _ task Hh Hne) as (Hsv & Htg).
      split; [rewrite Hl', Hl; set_solver|].
      split; [by rewrite Hsv, (Task_run_sendval _ _ _ _ _ task Hrun)|].
      destruct Htg as [Htg|Hkill].
      * left. by rewrite Htg, (Task_run_target_other _ _ _ _ _ task Hrun Hne).
      * right. subst c. by exists w, x, q, s1.
    + destruct (Task_run_StopIteration _ _ _ _ Hrun) as (Hr & _). cbn in Hr.
      destruct (Task_run_StopIteration_target _ _ _ _ Hrun) as (_ & Hother).
      destruct (notify_exit_objects _ _ _ Hn) as (Hobj & _).
      apply notify_exit_spec in Hn as (_ & _ & Hr' & _).
      split; [rewrite Hr', Hr; set_solver|]. rewrite Hobj.
      split; [by rewrite (Task_run_StopIteration_sendval _ _ _ _ task Hrun)|].
      left. by rewrite (Hother task Hne).
  - destruct Hall as [_ Hplaced].
    assert (task <> t) as Hne.
    { intros ->. apply Hplaced. unfold placed, registered. set_solver. }
    unfold new in Hc. run_monad. injection Hc as <-. cbn.
    rewrite decide_False by done. split; [set_solver|]. by split; [|left].
  - destruct Hall as [_ Hplaced].
    assert (task <> t) as Hne.
    { intros ->. apply Hplaced. unfold placed, registered. set_solver. }
    unfold joinall, new in Hc. run_monad. injection Hc as <-. cbn.
    rewrite decide_False by done. split; [set_solver|]. by split; [|left].
  - unfold shutdown in Hc. run_monad. injection Hc as <-. by split; [|split; [|left]].
Qed.

(** * The claims *)

(** C1. Two tasks wait for descriptor 7.  [wait_for_read] overwrites
    [io_waiting[7]]: task 3 is still in the registry, its coroutine is not
    finished, and it is in no placement; [epoll.register] then raises and
    the exception leaves [run]. *)
Theorem same_descriptor_loses_task :
  exists s,
    perform_all same_descriptor started = Raise IOError s /\
    3 ∈ taskmap s /\
    target (objects s 3) <> closed /\
    placements s 3 = 0%nat /\
    io_waiting s !! 7 = Some 4.
Proof.
  eexists. split; [vm_compute; reflexivity|].
  split; [by vm_compute|].
  split; [vm_compute; discriminate|].
  split; vm_compute; reflexivity.
Qed.

(** C2, as the code has it.  A failure other than [StopIteration] raised by
    the resumed coroutine is not caught by the loop: it leaves [run], with
    the task taken off the ready queue and its generator finished, and with
    the registry and every other placement as they were. *)
Theorem failure_leaves_run (w : World) (s : Scheduler) (task : tid) (q : list tid)
    (k : value -> body) (e : exn) :
  running s = true -> ready s = task :: q ->
  target (objects s task) = Gen k ->
  k (sendval (objects s task)) = Fail e ->
  e <> StopIteration ->
  run_iteration w s =
    Raise e (set_target task closed (set_ready (fun _ => q) s)).
Proof.
  intros Hrun Hready Hgen Hfail He.
  unfold run_iteration, try_except_StopIteration, Task_run. run_monad.
  rewrite Hrun, Hready. cbn. rewrite Hgen, Hfail. cbn.
  by destruct e.
Qed.

Lemma failure_leaves_run_witness :
  run_iteration quiet (final (perform_all (take 4 one_fails) started)) =
    Raise (Failure 0)
      (set_target 3 closed
         (set_ready (fun _ => [4; 1; 2]) (final (perform_all (take 4 one_fails) started)))).
Proof.
  apply (failure_leaves_run quiet _ 3 [4; 1; 2] (fun _ => faulty) (Failure 0)).
  - vm_compute; reflexivity.
  - vm_compute; reflexivity.
  - vm_compute; reflexivity.
  - vm_compute; reflexivity.
  - discriminate.
Defined.

(** C2 as stated fails: in the run [one_fails], task 3 raises [Failure 0]
    and the iteration does not return. *)
Lemma failure_not_contained :
  ~ (forall (w : World) (s : Scheduler) (task : tid) (q : list tid)
            (k : value -> body) (e : exn),
       running s = true -> ready s = task :: q ->
       target (objects s task) = Gen k ->
       k (sendval (objects s task)) = Fail e ->
       e <> StopIteration ->
       exists st s', run_iteration w s = Return st s').
Proof.
  intros H.
  destruct (H quiet (final (perform_all (take 4 one_fails) started)) 3 [4; 1; 2]
              (fun _ => faulty) (Failure 0)) as (st & s' & Hs').
  - vm_compute; reflexivity.
  - vm_compute; reflexivity.
  - vm_compute; reflexivity.
  - vm_compute; reflexivity.
  - discriminate.
  - vm_compute in Hs'. discriminate.
Qed.

(** C3. A task yields [WaitForTime(1)] when the clock reads 10.5: it is
    filed under 11, put back on the ready queue and resumed while the clock
    reads 11, before 10.5 + 1.  The deadline is the same in binary64
    arithmetic. *)
Theorem sleep_resumes_early :
  exists s1 s,
    perform_all (take 4 sleep_one) started = Return tt s1 /\
    time_waiting s1 = [(11%Q, [3])] /\
    perform_all sleep_one started = Return tt s /\
    target (objects s 3) = closed /\
    (3 ∉ taskmap s) /\
    (11 < (21 # 2) + 1)%Q /\
    Binary64.exptime (Binary64.of_Z 1) (Binary64.dyadic 21 (-1)) =
      Some (Binary64.of_Z 11) /\
    SFltb (Binary64.of_Z 11)
      (SFadd Binary64.prec Binary64.emax (Binary64.dyadic 21 (-1)) (Binary64.of_Z 1)) = true.
Proof.
  eexists. eexists. split; [vm_compute; reflexivity|].
  split; [vm_compute; reflexivity|].
  split; [vm_compute; reflexivity|].
  split; [vm_compute; reflexivity|].
  split; [by vm_compute|].
  split; [reflexivity|].
  split; vm_compute; reflexivity.
Qed.

(** C4. [WaitForTask.handle]: when the target is in the registry the waiting
    task leaves the registry, is appended to the target's list of
    [exit_waiting] and is not put on the ready queue; when the target is
    absent the task is put on the ready queue with [sendval = False]. *)
Theorem WaitForTask_handle_spec (s : Scheduler) (t task : tid) :
  (t ∈ taskmap s -> task ∈ taskmap s ->
   exists s',
     WaitForTask_handle t task s = Return tt s' /\
     taskmap s' = taskmap s ∖ {[task]} /\
     exit_waiting s' =
       <[t := default [] (exit_waiting s !! t) ++ [task]]> (exit_waiting s) /\
     ready s' = ready s /\
     io_waiting s' = io_waiting s /\
     time_waiting s' = time_waiting s /\
     sendval (objects s' task) = VTrue) /\
  (t ∉ taskmap s ->
   exists s',
     WaitForTask_handle t task s = Return tt s' /\
     ready s' = ready s ++ [task] /\
     taskmap s' = taskmap s /\
     exit_waiting s' = exit_waiting s /\
     io_waiting s' = io_waiting s /\
     time_waiting s' = time_waiting s /\
     sendval (objects s' task) = VFalse).
Proof.
  split.
  - intros Ht Htask. eexists.
    split; [by apply WaitForTask_handle_parks|].
    cbn. repeat split; try done. by rewrite decide_True.
  - intros Ht. eexists.
    split; [by apply WaitForTask_handle_absent|].
    cbn. repeat split; try done. by rewrite decide_True.
Qed.

Lemma WaitForTask_handle_witness :
  (exists s',
     WaitForTask_handle 1 2 started = Return tt s' /\
     taskmap s' = taskmap started ∖ {[2]} /\
     exit_waiting s' =
       <[1 := default [] (exit_waiting started !! 1) ++ [2]]> (exit_waiting started) /\
     ready s' = ready started /\
     io_waiting s' = io_waiting started /\
     time_waiting s' = time_waiting started /\
     sendval (objects s' 2) = VTrue) /\
  (exists s',
     WaitForTask_handle 9 2 started = Return tt s' /\
     ready s' = ready started ++ [2] /\
     taskmap s' = taskmap started /\
     exit_waiting s' = exit_waiting started /\
     io_waiting s' = io_waiting started /\
     time_waiting s' = time_waiting started /\
     sendval (objects s' 2) = VFalse).
Proof.
  split.
  - apply (proj1 (WaitForTask_handle_spec started 1 2)); by vm_compute.
  - apply (proj2 (WaitForTask_handle_spec started 9 2)); by vm_compute.
Defined.

(** C5. [WaitForTime(0)] raises [ZeroDivisionError] in its handler, in every
    state; with one such task and a [joinall] on it, the exception leaves
    [run]: the task is still in the registry, its coroutine has not
    finished, and the event of [joinall] is not set. *)
Theorem sleep_zero_raises :
  (forall now task s, WaitForTime_handle 0 now task s = Raise ZeroDivisionError s) /\
  exists s,
    perform_all sleep_zero started = Raise ZeroDivisionError s /\
    3 ∈ taskmap s /\
    target (objects s 3) <> closed /\
    events s = ∅.
Proof.
  split; [reflexivity|].
  eexists. split; [vm_compute; reflexivity|].
  split; [by vm_compute|].
  split; [vm_compute; discriminate|].
  vm_compute; reflexivity.
Qed.

(** C6. In the run [lonely_poll] the I/O-poll task is the only task on the
    ready queue and [io_waiting] is not empty: the timeout it passes to
    [epoll.poll] is 0, not -1, because [not(self.ready)] is false for every
    queue. *)
Theorem io_poll_never_blocks :
  exists s s',
    perform_all lonely_poll started = Return tt s /\
    ready s = [1] /\
    target (objects s 1) = io_epoll_task /\
    io_waiting s !! 7 = Some 3 /\
    run_iteration quiet s = Return (Dispatched 1) s' /\
    polled s' = [0].
Proof.
  eexists. eexists. split; [vm_compute; reflexivity|].
  split; [vm_compute; reflexivity|].
  split; [vm_compute; reflexivity|].
  split; [vm_compute; reflexivity|].
  split; vm_compute; reflexivity.
Qed.

(** C7, as the code has it by design.  [new] puts the identifier it returns
    in the registry.  An identifier whose task has neither completed nor
    been killed is in the registry or, while the task is parked by
    [WaitForTask], in a list of [exit_waiting].  When the task signals
    completion the identifier is out of the registry, and of every such
    list, once the iteration is over, and it stays out until a task is
    submitted under it again.  An identifier, the hash of the task object,
    that is free to be given to a new task is that of no task still to
    complete.  What a [KillTask] does to the entry of its target is left
    out. *)
Theorem registry_lifecycle :
  (forall (g : generator) (T : tid) (s : Scheduler),
     exists s', new g T s = Return T s' /\ T ∈ taskmap s') /\
  (forall (s : Scheduler) (T : tid),
     reachable s -> target (objects s T) <> closed ->
     T ∈ taskmap s \/ T ∈ exit_tasks s) /\
  (forall (w : World) (s s1 : Scheduler) (T : tid) (q : list tid),
     reachable s -> running s = true -> ready s = T :: q ->
     Task_run w T (set_ready (fun _ => q) s) = Raise StopIteration s1 ->
     exists s', run_iteration w s = Return (Dispatched T) s' /\
                (T ∉ taskmap s') /\ (T ∉ exit_tasks s')) /\
  (forall (c : call) (s s' : Scheduler) (T : tid),
     reachable s -> T ∉ taskmap s -> T ∉ exit_tasks s ->
     perform c s = Return tt s' ->
     (forall b, c <> New b T) -> (forall cs ev, c <> Joinall cs ev T) ->
     (T ∉ taskmap s') /\ (T ∉ exit_tasks s')) /\
  (forall (s : Scheduler) (T : tid),
     reachable s -> fresh s T -> target (objects s T) = closed).
Proof.
  split; [|split; [|split; [|split]]].
  - intros g T s. unfold new. run_monad. eexists; split; [reflexivity|]. cbn. set_solver.
  - intros s T Hreach. by apply reachable_live_known.
  - intros w s s1 T q Hreach Hrun Hready Hstop.
    pose proof (reachable_Inv _ Hreach) as HI.
    pose proof (Inv_dequeue _ _ _ HI Hready) as HI0.
    pose proof (Inv_at_not_registered _ _ HI0) as Hfresh.
    assert (T ∉ exit_tasks s) as Hout.
    { intros Hin. apply Hfresh. unfold placed. apply elem_of_app. by right. }
    destruct (Task_run_StopIteration _ _ _ _ Hstop) as (_ & Htm & Hex & _).
    cbn in Htm, Hex.
    destruct (notify_exit_total T s1) as [s' Hn].
    { rewrite Htm. by eapply reachable_dispatched_registered. }
    exists s'. split; [by eapply run_iteration_completes|].
    apply notify_exit_spec in Hn as (_ & Htm' & _ & Hex' & _).
    unfold exit_tasks in *. rewrite Htm', Hex', Hex.
    rewrite (exit_lists_split (exit_waiting s) T) in Hout.
    split; [|set_solver].
    rewrite elem_of_union, elem_of_list_to_set. set_solver.
  - intros c s s' T. apply perform_stays_out.
  - intros s T Hreach [Hreg Hplaced].
    destruct (target (objects s T)) eqn:Htarget; try done;
      (destruct (reachable_live_known s Hreach T) as [Hin|Hin];
       [by rewrite Htarget|done|];
       exfalso; apply Hplaced; unfold placed; apply elem_of_app; by right).
Qed.

Lemma join_finishing_reachable : reachable (final (perform_all join_finishing started)).
Proof.
  apply (leads_reachable started join_finishing); [|exact started_reachable].
  unfold join_finishing, join_running. cbn [replicate app]. leads_by_computation.
Qed.

Lemma resubmit_reachable : reachable (final (perform_all (take 4 resubmit) started)).
Proof.
  apply (leads_reachable started (take 4 resubmit)); [|exact started_reachable].
  unfold resubmit. cbn [take]. leads_by_computation.
Qed.

Lemma registry_lifecycle_witness :
  (3 ∈ taskmap (final (perform_all join_running started)) \/
   3 ∈ exit_tasks (final (perform_all join_running started))) /\
  (exists s',
     run_iteration quiet (final (perform_all join_finishing started)) =
       Return (Dispatched 4) s' /\
     (4 ∉ taskmap s') /\ (4 ∉ exit_tasks s')) /\
  ((3 ∉ taskmap (final (perform_all (take 4 resubmit ++ [Iterate quiet]) started))) /\
   (3 ∉ exit_tasks (final (perform_all (take 4 resubmit ++ [Iterate quiet]) started)))) /\
  target (objects (final (perform_all (take 4 resubmit) started)) 3) = closed.
Proof.
  split; [|split; [|split]].
  - apply (proj1 (proj2 registry_lifecycle)
             (final (perform_all join_running started)) 3).
    + exact join_running_reachable.
    + vm_compute. discriminate.
  - apply (proj1 (proj2 (proj2 registry_lifecycle)) quiet
             (final (perform_all join_finishing started))
             (final (Task_run quiet 4
                       (set_ready (fun _ => [1; 2])
                          (final (perform_all join_finishing started)))))
             4 [1; 2]).
    + exact join_finishing_reachable.
    + vm_compute; reflexivity.
    + vm_compute; reflexivity.
    + vm_compute; reflexivity.
  - apply (proj1 (proj2 (proj2 (proj2 registry_lifecycle))) (Iterate quiet)
             (final (perform_all (take 4 resubmit) started))
             (final (perform_all (take 4 resubmit ++ [Iterate quiet]) started)) 3).
    + exact resubmit_reachable.
    + decide_by_computation.
    + decide_by_computation.
    + vm_compute; reflexivity.
    + discriminate.
    + discriminate.
  - apply (proj2 (proj2 (proj2 (proj2 registry_lifecycle)))
             (final (perform_all (take 4 resubmit) started)) 3).
    + exact resubmit_reachable.
    + split; decide_by_computation.
Defined.

(** C7 as stated fails on each of its three parts.  In the run
    [join_running], task 3 has been submitted, has neither completed nor
    been killed, and is not in the registry: it waits for task 4.  In the
    run [kill_parked], task 3 has been killed and is in the registry eight
    iterations later.  In the run [resubmit], the identifier 3 is given to
    a second task once the first has completed. *)
Lemma registry_lifecycle_fails :
  ~ (forall (cs : list call) (s : Scheduler) (b : body) (t : tid),
       New b t ∈ cs -> leads started cs s ->
       target (objects s t) <> closed -> t ∈ taskmap s) /\
  ~ (forall (cs : list call) (s : Scheduler) (b : body) (t : tid),
       New b t ∈ cs -> leads started cs s ->
       target (objects s t) = closed -> t ∉ taskmap s) /\
  ~ (forall (cs : list call) (s : Scheduler) (i j : nat) (b b' : body) (t : tid),
       leads started cs s ->
       cs !! i = Some (New b t) -> cs !! j = Some (New b' t) -> i = j).
Proof.
  split; [|split]; intros H.
  - assert (3 ∈ taskmap (final (perform_all join_running started))) as Hin.
    { apply (H join_running _ (joiner 4)).
      - unfold join_running. set_solver.
      - unfold join_running. leads_by_computation.
      - vm_compute. discriminate. }
    vm_compute in Hin. discriminate.
  - assert (3 ∉ taskmap (final (perform_all kill_parked started))) as Hout.
    { apply (H kill_parked _ (reader 7)).
      - unfold kill_parked. set_solver.
      - unfold kill_parked. cbn [replicate app]. leads_by_computation.
      - vm_compute; reflexivity. }
    apply Hout. by vm_compute.
  - assert (0%nat = 4%nat) as Heq; [|discriminate].
    apply (H resubmit (final (perform_all resubmit started)) 0%nat 4%nat Finish worker 3).
    + unfold resubmit. leads_by_computation.
    + reflexivity.
    + reflexivity.
Qed.

(** C8. When the resumed task signals completion, the loop removes it from
    the registry, puts every task of its list of [exit_waiting] back in the
    registry and on the ready queue, in order, and deletes that list. *)
Theorem completion_notifies (w : World) (s s1 : Scheduler) (task : tid) (q : list tid) :
  running s = true -> ready s = task :: q ->
  Task_run w task (set_ready (fun _ => q) s) = Raise StopIteration s1 ->
  task ∈ taskmap s ->
  exists s',
    run_iteration w s = Return (Dispatched task) s' /\
    taskmap s' = list_to_set (default [] (exit_waiting s !! task)) ∪ (taskmap s ∖ {[task]}) /\
    (task ∉ default [] (exit_waiting s !! task) -> task ∉ taskmap s') /\
    ready s' = q ++ default [] (exit_waiting s !! task) /\
    exit_waiting s' = delete task (exit_waiting s) /\
    io_waiting s' = io_waiting s /\
    time_waiting s' = time_waiting s.
Proof.
  intros Hrun Hready Hstop Htask.
  destruct (Task_run_StopIteration _ _ _ _ Hstop) as (Hr & Htm & Hex & Hio & Htw & _).
  cbn in Hr, Htm, Hex, Hio, Htw.
  destruct (notify_exit_total task s1) as [s' Hn]; [by rewrite Htm|].
  exists s'. split; [by eapply run_iteration_completes|].
  apply notify_exit_spec in Hn as (_ & Htm' & Hr' & Hex' & Hio' & Htw' & _).
  rewrite Htm', Hr', Hex', Hio', Htw', Htm, Hr, Hex, Hio, Htw.
  repeat split; try done. set_solver.
Qed.

Lemma completion_notifies_witness :
  exists s',
    run_iteration quiet (final (perform_all join_finishing started)) =
      Return (Dispatched 4) s' /\
    taskmap s' =
      list_to_set (default [] (exit_waiting (final (perform_all join_finishing started)) !! 4))
      ∪ (taskmap (final (perform_all join_finishing started)) ∖ {[4]}) /\
    (4 ∉ default [] (exit_waiting (final (perform_all join_finishing started)) !! 4) ->
     4 ∉ taskmap s') /\
    ready s' =
      [1; 2] ++ default [] (exit_waiting (final (perform_all join_finishing started)) !! 4) /\
    exit_waiting s' = delete 4 (exit_waiting (final (perform_all join_finishing started))) /\
    io_waiting s' = io_waiting (final (perform_all join_finishing started)) /\
    time_waiting s' = time_waiting (final (perform_all join_finishing started)).
Proof.
  apply (completion_notifies quiet (final (perform_all join_finishing started))
           (final (Task_run quiet 4
                     (set_ready (fun _ => [1; 2]) (final (perform_all join_finishing started)))))
           4 [1; 2]).
  - vm_compute; reflexivity.
  - vm_compute; reflexivity.
  - vm_compute; reflexivity.
  - by vm_compute.
Defined.

(** C9, as the code has it.  The iteration in which a task yields
    [KillTask] returns, and the task is back on the ready queue, once.
    When the target is in the registry its generator is closed and the
    value [True] waits for the caller; when the caller is not the target
    its generator is suspended still, and its next resume goes on from
    there with [True].  When the target is not in the registry no
    generator is closed and the next resume of the caller goes on with
    [False].  While the caller waits on the ready queue for that resume, a
    call that returns leaves the value as it is, and leaves the generator
    as it is unless a task kills the caller; the resume passes the value to
    the generator. *)
Theorem KillTask_semantics :
  (forall (w : World) (s : Scheduler) (task t : tid) (q : list tid) (k k' : value -> body),
     running s = true -> ready s = task :: q ->
     target (objects s task) = Gen k ->
     k (sendval (objects s task)) = Yield (Sys (KillTask t)) k' ->
     exists s',
       run_iteration w s = Return (Dispatched task) s' /\
       ready s' = q ++ [task] /\
       taskmap s' = taskmap s /\ exit_waiting s' = exit_waiting s /\
       io_waiting s' = io_waiting s /\ time_waiting s' = time_waiting s /\
       (if decide (t ∈ taskmap s)
        then target (objects s' t) = closed /\
             sendval (objects s' task) = VTrue /\
             (forall x, x <> t -> x <> task ->
                        target (objects s' x) = target (objects s x)) /\
             (t <> task ->
              target (objects s' task) = Gen k' /\
              forall w', Task_run w' task s' = resume task k' VTrue s')
        else sendval (objects s' task) = VFalse /\
             (forall x, x <> task -> target (objects s' x) = target (objects s x)) /\
             target (objects s' task) = Gen k' /\
             forall w', Task_run w' task s' = resume task k' VFalse s')) /\
  (forall (c : call) (s s' : Scheduler) (task : tid),
     allowed s c -> perform c s = Return tt s' ->
     task ∈ ready s -> (forall q, ready s <> task :: q) ->
     task ∈ ready s' /\
     sendval (objects s' task) = sendval (objects s task) /\
     (target (objects s' task) = target (objects s task) \/
      exists w x q s1,
        c = Iterate w /\ ready s = x :: q /\
        Task_run w x (set_ready (fun _ => q) s) = Return (Sys (KillTask task)) s1)) /\
  (forall (w : World) (s : Scheduler) (task : tid) (k : value -> body),
     target (objects s task) = Gen k ->
     Task_run w task s = resume task k (sendval (objects s task)) s).
Proof.
  split; [|split].
  - intros w s task t q k k' Hrun Hready Htarget Hres.
    pose (s1 := set_target task (Gen k') (set_ready (fun _ => q) s)).
    assert (Task_run w task (set_ready (fun _ => q) s) = Return (Sys (KillTask t)) s1)
      as Hyield.
    { rewrite (Task_run_Gen w task _ k) by done. cbn. by rewrite Hres. }
    destruct (decide (t ∈ taskmap s)) as [Hin|Hout].
    + eexists. split.
      { apply (run_iteration_Sys w s task q (KillTask t) s1); [done|done|done|].
        unfold handle. rewrite KillTask_handle_state.
        rewrite (decide_True (P := t ∈ taskmap s1)) by done. reflexivity. }
      do 5 (split; [by unfold s1|]).
      split; [unfold s1; cbn; by repeat (case_decide; simplify_eq; cbn)|].
      split; [unfold s1; cbn; by repeat (case_decide; simplify_eq; cbn)|].
      split.
      * intros x Hx Hx'. unfold s1. cbn. by rewrite !decide_False by done.
      * intros Hne.
        assert (target (objects (set_ready (fun q0 => q0 ++ [task])
                  (set_sendval task VTrue (set_target t closed s1))) task) = Gen k')
          as Htarget'.
        { unfold s1. cbn. rewrite decide_True by done.
          rewrite (decide_False (P := task = t)) by done. by rewrite decide_True. }
        split; [exact Htarget'|].
        intros w'. rewrite (Task_run_resume w' task _ k' Htarget').
        unfold s1. cbn. by rewrite decide_True by done.
    + eexists. split.
      { apply (run_iteration_Sys w s task q (KillTask t) s1); [done|done|done|].
        unfold handle. rewrite KillTask_handle_state.
        rewrite (decide_False (P := t ∈ taskmap s1)) by done. reflexivity. }
      do 5 (split; [by unfold s1|]).
      split; [unfold s1; cbn; by repeat (case_decide; simplify_eq; cbn)|].
      split; [intros x Hx; unfold s1; cbn; by rewrite !decide_False by done|].
      assert (target (objects (set_ready (fun q0 => q0 ++ [task])
                (set_sendval task VFalse s1)) task) = Gen k') as Htarget'.
      { unfold s1. cbn. by rewrite !decide_True by done. }
      split; [exact Htarget'|].
      intros w'. rewrite (Task_run_resume w' task _ k' Htarget').
      unfold s1. cbn. by rewrite decide_True by done.
  - intros c s s' task. apply perform_keeps_pending.
  - intros w s task k. apply Task_run_resume.
Qed.

Lemma KillTask_semantics_witness :
  (exists s',
     run_iteration quiet (final (perform_all (take 5 kill_parked) started)) =
       Return (Dispatched 4) s' /\
     ready s' = [1; 2] ++ [4] /\
     taskmap s' = taskmap (final (perform_all (take 5 kill_parked) started)) /\
     exit_waiting s' = exit_waiting (final (perform_all (take 5 kill_parked) started)) /\
     io_waiting s' = io_waiting (final (perform_all (take 5 kill_parked) started)) /\
     time_waiting s' = time_waiting (final (perform_all (take 5 kill_parked) started)) /\
     (if decide (3 ∈ taskmap (final (perform_all (take 5 kill_parked) started)))
      then target (objects s' 3) = closed /\
           sendval (objects s' 4) = VTrue /\
           (forall x, x <> 3 -> x <> 4 ->
              target (objects s' x) =
              target (objects (final (perform_all (take 5 kill_parked) started)) x)) /\
           (3 <> 4 ->
            target (objects s' 4) = Gen (fun _ => worker) /\
            forall w', Task_run w' 4 s' = resume 4 (fun _ => worker) VTrue s')
      else sendval (objects s' 4) = VFalse /\
           (forall x, x <> 4 ->
              target (objects s' x) =
              target (objects (final (perform_all (take 5 kill_parked) started)) x)) /\
           target (objects s' 4) = Gen (fun _ => worker) /\
           forall w', Task_run w' 4 s' = resume 4 (fun _ => worker) VFalse s')) /\
  (exists s',
     run_iteration quiet (final (perform_all kill_nobody started)) =
       Return (Dispatched 3) s' /\
     ready s' = [1; 2] ++ [3] /\
     taskmap s' = taskmap (final (perform_all kill_nobody started)) /\
     exit_waiting s' = exit_waiting (final (perform_all kill_nobody started)) /\
     io_waiting s' = io_waiting (final (perform_all kill_nobody started)) /\
     time_waiting s' = time_waiting (final (perform_all kill_nobody started)) /\
     (if decide (9 ∈ taskmap (final (perform_all kill_nobody started)))
      then target (objects s' 9) = closed /\
           sendval (objects s' 3) = VTrue /\
           (forall x, x <> 9 -> x <> 3 ->
              target (objects s' x) =
              target (objects (final (perform_all kill_nobody started)) x)) /\
           (9 <> 3 ->
            target (objects s' 3) = Gen (fun _ => worker) /\
            forall w', Task_run w' 3 s' = resume 3 (fun _ => worker) VTrue s')
      else sendval (objects s' 3) = VFalse /\
           (forall x, x <> 3 ->
              target (objects s' x) =
              target (objects (final (perform_all kill_nobody started)) x)) /\
           target (objects s' 3) = Gen (fun _ => worker) /\
           forall w', Task_run w' 3 s' = resume 3 (fun _ => worker) VFalse s')) /\
  (4 ∈ ready (final (perform_all (take 7 kill_parked) started)) /\
   sendval (objects (final (perform_all (take 7 kill_parked) started)) 4) =
     sendval (objects (final (perform_all (take 6 kill_parked) started)) 4) /\
   (target (objects (final (perform_all (take 7 kill_parked) started)) 4) =
      target (objects (final (perform_all (take 6 kill_parked) started)) 4) \/
    exists w x q s1,
      Iterate quiet = Iterate w /\
      ready (final (perform_all (take 6 kill_parked) started)) = x :: q /\
      Task_run w x (set_ready (fun _ => q) (final (perform_all (take 6 kill_parked) started)))
        = Return (Sys (KillTask 4)) s1)).
Proof.
  split; [|split].
  - apply (proj1 KillTask_semantics quiet
             (final (perform_all (take 5 kill_parked) started)) 4 3 [1; 2]
             (fun _ => killer 3) (fun _ => worker)).
    + vm_compute; reflexivity.
    + vm_compute; reflexivity.
    + vm_compute; reflexivity.
    + reflexivity.
  - apply (proj1 KillTask_semantics quiet
             (final (perform_all kill_nobody started)) 3 9 [1; 2]
             (fun _ => killer 9) (fun _ => worker)).
    + vm_compute; reflexivity.
    + vm_compute; reflexivity.
    + vm_compute; reflexivity.
    + reflexivity.
  - apply (proj1 (proj2 KillTask_semantics) (Iterate quiet)
             (final (perform_all (take 6 kill_parked) started))
             (final (perform_all (take 7 kill_parked) started)) 4).
    + exact I.
    + vm_compute; reflexivity.
    + decide_by_computation.
    + intros q Hq. vm_compute in Hq. discriminate.
Defined.

(** C9 as stated fails for a task that kills itself: in the run
    [kills_itself] the target, task 3, is in the registry and its generator
    is closed, and that generator is the caller's: its next resume does not
    go on with [True], it signals completion. *)
Lemma self_kill_not_resumed :
  ~ (forall (w : World) (s : Scheduler) (task t : tid) (q : list tid)
            (k k' : value -> body),
       running s = true -> ready s = task :: q ->
       target (objects s task) = Gen k ->
       k (sendval (objects s task)) = Yield (Sys (KillTask t)) k' ->
       t ∈ taskmap s ->
       exists s',
         run_iteration w s = Return (Dispatched task) s' /\
         target (objects s' t) = closed /\
         forall w', Task_run w' task s' = resume task k' VTrue s').
Proof.
  intros H.
  destruct (H quiet (final (perform_all kills_itself started)) 3 3 [1; 2]
              (fun _ => killer 3) (fun _ => worker))
    as (s' & Hit & _ & Hres).
  - vm_compute; reflexivity.
  - vm_compute; reflexivity.
  - vm_compute; reflexivity.
  - reflexivity.
  - by vm_compute.
  - vm_compute in Hit. injection Hit as <-.
    specialize (Hres quiet). vm_compute in Hres. discriminate.
Qed.

Lemma self_join_reachable : reachable (final (perform_all self_join started)).
Proof.
  apply (leads_reachable started self_join); [|exact started_reachable].
  unfold self_join. leads_by_computation.
Qed.

(** C10. A task of a reachable state that yields [WaitForTask] on its own
    identifier is in the registry when it does; the handler takes it out of
    the registry and appends it to the list of [exit_waiting] under its own
    identifier, without putting it on the ready queue; and in every state
    the run leads to afterwards the task is still in that list, out of the
    registry and off the ready queue, so that no iteration dispatches it. *)
Theorem self_join_parks_forever (w : World) (s s1 : Scheduler) (task : tid) (q : list tid) :
  reachable s -> running s = true -> ready s = task :: q ->
  Task_run w task (set_ready (fun _ => q) s) = Return (Sys (WaitForTask task)) s1 ->
  exists s',
    run_iteration w s = Return (Dispatched task) s' /\
    task ∈ taskmap s /\
    (task ∉ taskmap s') /\
    exit_waiting s' !! task = Some (default [] (exit_waiting s !! task) ++ [task]) /\
    (task ∉ ready s') /\
    forall cs s'',
      leads s' cs s'' ->
      (task ∉ ready s'') /\
      (task ∉ taskmap s'') /\
      (exists l, exit_waiting s'' !! task = Some l /\ task ∈ l) /\
      (forall w' st s3, run_iteration w' s'' = Return st s3 -> st <> Dispatched task).
Proof.
  intros Hreach Hrun Hready Hyield.
  pose proof (reachable_Inv _ Hreach) as HI.
  pose proof (Inv_dequeue _ _ _ HI Hready) as HI0.
  pose proof (Task_run_taskmap _ _ _ _ _ Hyield) as Htm. cbn in Htm.
  pose proof (Task_run_exit_waiting _ _ _ _ _ Hyield) as Hex. cbn in Hex.
  assert (task ∈ taskmap s) as Hin.
  { apply (inv_registry _ _ HI). unfold registered. rewrite Hready. set_solver. }
  assert (task ∈ taskmap s1) as Hin1 by by rewrite Htm.
  pose proof (WaitForTask_handle_parks s1 task task Hin1 Hin1) as Hh.
  set (s' := set_sendval task VTrue _) in Hh.
  assert (taskmap s' = taskmap s1 ∖ {[task]}) as Htm' by done.
  assert (exit_waiting s' =
            <[task := default [] (exit_waiting s1 !! task) ++ [task]]> (exit_waiting s1))
    as Hex' by done.
  assert (run_iteration w s = Return (Dispatched task) s') as Hit.
  { by eapply run_iteration_Sys. }
  assert (Inv s') as HI' by by eapply run_iteration_Inv.
  assert (exit_member s' task) as Hm.
  { exists (default [] (exit_waiting s !! task) ++ [task]).
    rewrite Hex', Hex, lookup_insert_eq. split; [done|set_solver]. }
  exists s'. split; [done|]. split; [done|].
  split; [rewrite Htm', Htm; set_solver|].
  split; [by rewrite Hex', Hex, lookup_insert_eq|].
  split.
  { destruct (exit_member_not_registered _ _ HI' Hm) as [Hnr _].
    unfold registered in Hnr. set_solver. }
  intros cs s'' Hleads.
  destruct (leads_exit_member _ _ _ _ Hleads HI' Hm) as [HI'' Hm''].
  destruct (exit_member_not_registered _ _ HI'' Hm'') as [Hnr Hnt].
  assert (task ∉ ready s'') as Hnready by (unfold registered in Hnr; set_solver).
  repeat split; try done.
  intros w' st s3 Hit' ->. apply run_iteration_cases in Hit'.
  destruct Hit' as [(_ & ? & _)|[(_ & _ & ? & _)|(x & q' & _ & Hready' & [= <-] & _)]];
    [done|done|].
  apply Hnready. rewrite Hready'. set_solver.
Qed.

Lemma self_join_parks_forever_witness :
  exists s',
    run_iteration quiet (final (perform_all self_join started)) = Return (Dispatched 3) s' /\
    3 ∈ taskmap (final (perform_all self_join started)) /\
    (3 ∉ taskmap s') /\
    exit_waiting s' !! 3 =
      Some (default [] (exit_waiting (final (perform_all self_join started)) !! 3) ++ [3]) /\
    (3 ∉ ready s') /\
    forall cs s'',
      leads s' cs s'' ->
      (3 ∉ ready s'') /\
      (3 ∉ taskmap s'') /\
      (exists l, exit_waiting s'' !! 3 = Some l /\ 3 ∈ l) /\
      (forall w' st s3, run_iteration w' s'' = Return st s3 -> st <> Dispatched 3).
Proof.
  apply (self_join_parks_forever quiet (final (perform_all self_join started))
           (final (Task_run quiet 3
                     (set_ready (fun _ => [1; 2]) (final (perform_all self_join started)))))
           3 [1; 2]).
  - exact self_join_reachable.
  - vm_compute; reflexivity.
  - vm_compute; reflexivity.
  - vm_compute; reflexivity.
Defined.
